(** * MultiStepTranslate: a three-step translation pipeline

    Shallow embedding of [MultiStepTranslate.py]: the completion client
    [make_api_call], the orchestrator [translate_text] and the driver [main],
    with the HTTP service and the file system as explicit environment and
    state.  Python strings are lists of code points, exceptions are values of
    an error monad, and every side effect is recorded in the [World]. *)

From Stdlib Require Import List String Ascii ZArith NArith Bool Lia PrimFloat DecimalString.
Import ListNotations.
Local Open Scope list_scope.

(** ** Python strings *)

Module PyStr.

(** A [str] is a sequence of Unicode code points. *)
Definition char := N.
Definition str := list char.

(** A string literal of the source (ASCII only). *)
Definition lit (s : string) : str := map N_of_ascii (list_ascii_of_string s).

Definition nl : str := [10%N].

Fixpoint str_eqb (a b : str) : bool :=
  match a, b with
  | [], [] => true
  | x :: a', y :: b' => N.eqb x y && str_eqb a' b'
  | _, _ => false
  end.

(** [str.isspace] on one code point, as [str.strip()] with no argument
    uses it: the ASCII controls 9-13 and 28-31, the space, and the Unicode
    white space U+0085, U+00A0, U+1680, U+2000-U+200A, U+2028, U+2029,
    U+202F, U+205F, U+3000. *)
Definition isspace (c : char) : bool :=
  ((9 <=? c) && (c <=? 13) || (28 <=? c) && (c <=? 32)
   || (c =? 133) || (c =? 160) || (c =? 5760)
   || (8192 <=? c) && (c <=? 8202)
   || (c =? 8232) || (c =? 8233) || (c =? 8239) || (c =? 8287)
   || (c =? 12288))%N.

Fixpoint lstrip (s : str) : str :=
  match s with
  | [] => []
  | c :: s' => if isspace c then lstrip s' else s
  end.

Definition rstrip (s : str) : str := rev (lstrip (rev s)).

(** [s.strip()] *)
Definition strip (s : str) : str := rstrip (lstrip s).

Fixpoint startswith (p s : str) : bool :=
  match p, s with
  | [], _ => true
  | _ :: _, [] => false
  | a :: p', b :: s' => N.eqb a b && startswith p' s'
  end.

(** [p in s] for two strings: [p] occurs in [s] as a contiguous run. *)
Fixpoint contains (p s : str) : bool :=
  startswith p s
  || match s with
     | [] => false
     | _ :: s' => contains p s'
     end.

(** [not s] for a string. *)
Definition is_empty (s : str) : bool :=
  match s with [] => true | _ :: _ => false end.

(** [str(n)] for an integer. *)
Definition str_of_int (z : Z) : str := lit (NilZero.string_of_int (Z.to_int z)).

(** Lone surrogates cannot be encoded as UTF-8. *)
Definition is_surrogate (c : char) : bool := ((55296 <=? c) && (c <=? 57343))%N.
Definition utf8_encodable (s : str) : bool := forallb (fun c => negb (is_surrogate c)) s.

(** Lower-case hexadecimal, as [repr] writes its escapes. *)
Definition hex_digit (d : N) : char := (if d <? 10 then 48 + d else 87 + d)%N.

Fixpoint hex_fixed (width : nat) (n : N) : str :=
  match width with
  | O => []
  | S k => hex_fixed k (n / 16)%N ++ [hex_digit (n mod 16)%N]
  end.

(** One character inside [repr(s)], for the chosen quote.  Beyond ASCII,
    [printable] is the table of the interpreter's Unicode database. *)
Definition repr_char (printable : char -> bool) (quote c : char) : str :=
  (if (c =? quote) || (c =? 92) then [92; c]
   else if c =? 9 then [92; 116]
   else if c =? 10 then [92; 110]
   else if c =? 13 then [92; 114]
   else if (c <? 32) || (c =? 127) then [92; 120] ++ hex_fixed 2 c
   else if c <? 127 then [c]
   else if printable c then [c]
   else if c <=? 255 then [92; 120] ++ hex_fixed 2 c
   else if c <=? 65535 then [92; 117] ++ hex_fixed 4 c
   else [92; 85] ++ hex_fixed 8 c)%N.

(** [repr(s)] for a string: single quotes, unless the text holds a single
    quote and no double quote. *)
Definition py_repr (printable : char -> bool) (s : str) : str :=
  let quote := (if existsb (N.eqb 39) s && negb (existsb (N.eqb 34) s) then 34 else 39)%N in
  [quote] ++ flat_map (repr_char printable quote) s ++ [quote].

End PyStr.
Export PyStr.

(** ** Python values decoded from JSON *)

#[local] Unset Elimination Schemes.

Inductive pyval : Type :=
| PNone
| PBool (b : bool)
| PInt (z : Z)
| PFloat (f : float)
| PStr (s : str)
| PList (l : list pyval)
| PDict (d : list (str * pyval)).

#[local] Set Elimination Schemes.

(** [type(v).__name__], as it appears in error messages. *)
Definition type_name (v : pyval) : str :=
  match v with
  | PNone => lit "NoneType"
  | PBool _ => lit "bool"
  | PInt _ => lit "int"
  | PFloat _ => lit "float"
  | PStr _ => lit "str"
  | PList _ => lit "list"
  | PDict _ => lit "dict"
  end.

(** A dict keeps one value per key; in the association list the first
    binding of a key is the live one. *)
Fixpoint dict_lookup (d : list (str * pyval)) (k : str) : option pyval :=
  match d with
  | [] => None
  | (k', v) :: d' => if str_eqb k' k then Some v else dict_lookup d' k
  end.

(** ** Exceptions *)

Inductive ExcClass : Type :=
| RuntimeError
| ValueError
| UnicodeDecodeError
| UnicodeEncodeError
| IndexError
| KeyError
| AttributeError
| TypeError
| FileNotFoundError
| PermissionError
| IsADirectoryError
| NotADirectoryError
| OSError
| RequestException      (* requests.exceptions: ConnectionError, Timeout, ... *)
| HTTPError             (* raised by raise_for_status *)
| JSONDecodeError       (* requests.exceptions.JSONDecodeError *)
| SystemExit (code : Z) (* raised by exit(code); not an Exception *)
| Exception.

Definition class_eqb (c d : ExcClass) : bool :=
  match c, d with
  | RuntimeError, RuntimeError | ValueError, ValueError
  | UnicodeDecodeError, UnicodeDecodeError | UnicodeEncodeError, UnicodeEncodeError
  | IndexError, IndexError | KeyError, KeyError | AttributeError, AttributeError
  | TypeError, TypeError | FileNotFoundError, FileNotFoundError
  | PermissionError, PermissionError | IsADirectoryError, IsADirectoryError
  | NotADirectoryError, NotADirectoryError | OSError, OSError
  | RequestException, RequestException | HTTPError, HTTPError
  | JSONDecodeError, JSONDecodeError | Exception, Exception => true
  | SystemExit a, SystemExit b => Z.eqb a b
  | _, _ => false
  end.

(** [issubclass c d] on the classes above. *)
Definition issubclass (c d : ExcClass) : bool :=
  match d with
  | Exception => match c with SystemExit _ => false | _ => true end
  | ValueError =>
      match c with
      | ValueError | UnicodeDecodeError | UnicodeEncodeError | JSONDecodeError => true
      | _ => false
      end
  | RequestException =>
      match c with
      | RequestException | HTTPError | JSONDecodeError => true
      | _ => false
      end
  | OSError =>
      match c with
      | OSError | FileNotFoundError | PermissionError | IsADirectoryError
      | NotADirectoryError | RequestException | HTTPError | JSONDecodeError => true
      | _ => false
      end
  | _ => class_eqb c d
  end.

(** An exception object: its class, [str(e)], and [__cause__]
    (set by [raise ... from e]). *)
#[local] Unset Elimination Schemes.

Inductive PyExc : Type :=
| mkExc (cls : ExcClass) (msg : str) (cause : option PyExc).

#[local] Set Elimination Schemes.

Definition exc_class (e : PyExc) : ExcClass := let (c, _, _) := e in c.
Definition exc_str (e : PyExc) : str := let (_, m, _) := e in m.
Definition exc_cause (e : PyExc) : option PyExc := let (_, _, c) := e in c.
Definition isinstance (e : PyExc) (c : ExcClass) : bool := issubclass (exc_class e) c.

Definition exc (c : ExcClass) (m : str) : PyExc := mkExc c m None.

Inductive Result (A : Type) : Type :=
| Ok (a : A)
| Raise (e : PyExc).
Arguments Ok {A} a.
Arguments Raise {A} e.

(** ** Methods and subscripts used on the decoded response *)

(** [v.get(k, dflt)] *)
Definition py_get (v : pyval) (k : str) (dflt : pyval) : Result pyval :=
  match v with
  | PDict d => Ok (match dict_lookup d k with Some x => x | None => dflt end)
  | _ => Raise (exc AttributeError
                  (lit "'" ++ type_name v ++ lit "' object has no attribute 'get'"))
  end.

(** [v[0]] *)
Definition py_getitem0 (v : pyval) : Result pyval :=
  match v with
  | PList (x :: _) => Ok x
  | PList [] => Raise (exc IndexError (lit "list index out of range"))
  | PStr (c :: _) => Ok (PStr [c])
  | PStr [] => Raise (exc IndexError (lit "string index out of range"))
  | PDict _ => Raise (exc KeyError (lit "0"))
  | _ => Raise (exc TypeError (lit "'" ++ type_name v ++ lit "' object is not subscriptable"))
  end.

(** [v.strip()] *)
Definition py_strip (v : pyval) : Result str :=
  match v with
  | PStr s => Ok (strip s)
  | _ => Raise (exc AttributeError
                  (lit "'" ++ type_name v ++ lit "' object has no attribute 'strip'"))
  end.

(** ** The HTTP service and the world *)

(** The JSON payload of one completion request. *)
Record Payload : Type := mkPayload {
  model : str;
  prompt : str;
  max_tokens : Z;
  temperature : float
}.

(** One [requests.post] call. *)
Record Request : Type := mkRequest {
  req_url : str;
  req_headers : list (str * str);
  req_json : Payload
}.

(** What [response.json()] does with the body: it decodes it, or raises
    requests' JSONDecodeError with the given text (a RequestException since
    requests 2.27), or lets another exception of the decoder through (a plain
    ValueError for an integer literal beyond the interpreter's digit limit). *)
Inductive JsonResult : Type :=
| Decoded (v : pyval)
| NotJson (why : str)
| DecodeRaised (c : ExcClass) (msg : str) (is_exception : issubclass c Exception = true).

(** What comes back when the transport succeeds. *)
Record HttpResponse : Type := mkResponse {
  status_code : Z;
  reason : str;
  url : str;
  json : JsonResult
}.

(** What [requests.post] does with a request: it raises a RequestException,
    or returns a response, or lets an exception of the layers below through
    (a UnicodeEncodeError for a header value outside Latin-1, a ValueError for
    a header value that http.client refuses). *)
Inductive HttpResult : Type :=
| TransportError (msg : str)
| Response (r : HttpResponse)
| Raised (c : ExcClass) (msg : str) (is_exception : issubclass c Exception = true).

(** File-system entries, as [open] sees them.  The content of a regular file
    is the text that Python's text layer reads or writes (UTF-8 and newline
    translation lie below the model); [Undecodable] stands for bytes that are
    not UTF-8, with the text of the UnicodeDecodeError reading them raises,
    which the codec writes in ASCII. *)
Inductive FileData : Type :=
| Text (s : str)
| Undecodable (why : string).

(** The errors [open] can report for a path. *)
Inductive OsError : Type :=
| ENOENT          (* no such file or directory *)
| EACCES          (* permission denied *)
| EISDIR          (* is a directory *)
| ENOTDIR         (* a component of the path is not a directory *)
| ENAMETOOLONG    (* file name too long *)
| ELOOP.          (* too many levels of symbolic links *)

Inductive Node : Type :=
| Missing (parent : bool)
    (* no entry of that name; [parent]: its directory exists and lets a file
       be created, otherwise the directory does not exist either *)
| Directory
| Regular (readable writable : bool) (data : FileData)
| Blocked (on_read on_write : OsError).
    (* no file can be opened at this path: [open] fails with the first error
       when reading and with the second when writing (a path under a regular
       file, an over-long name, a directory that cannot be searched or
       written) *)

(** The part of the process environment the program reads but never changes. *)
Record Env : Type := mkEnv {
  MY_API_KEY : option str;                          (* os.environ.get("MY_API_KEY") *)
  respond : list Request -> Request -> HttpResult;  (* the service, given the requests so far *)
  os_error_head : OsError -> string;                (* "[Errno n] text" of the platform, ASCII *)
  codec_error : str -> string;                      (* str(e) of a UnicodeEncodeError, ASCII *)
  isprintable : char -> bool                        (* str.isprintable of a character beyond ASCII *)
}.

(** The exception class [open] raises for an error. *)
Definition os_error_class (e : OsError) : ExcClass :=
  match e with
  | ENOENT => FileNotFoundError
  | EACCES => PermissionError
  | EISDIR => IsADirectoryError
  | ENOTDIR => NotADirectoryError
  | ENAMETOOLONG | ELOOP => OSError
  end.

(** [repr(path)]; a surrogate is never printable. *)
Definition path_repr (env : Env) (path : str) : str :=
  py_repr (fun c => isprintable env c && negb (is_surrogate c)) path.

(** [str(e)] of the OSError that [open] raises on a path:
    "[Errno n] text: 'path'". *)
Definition os_error_text (env : Env) (e : OsError) (path : str) : str :=
  lit (os_error_head env e) ++ lit ": " ++ path_repr env path.

Definition os_exception (env : Env) (e : OsError) (path : str) : PyExc :=
  exc (os_error_class e) (os_error_text env e path).

(** [str(e)] of the UnicodeEncodeError for a text UTF-8 cannot encode. *)
Definition encode_error_text (env : Env) (text : str) : str := lit (codec_error env text).

(** What the program changes: the requests it has sent (oldest first), the
    file system, the texts handed to [write] (oldest first), and the texts of
    the [print] calls that went through (oldest first). *)
Record World : Type := mkWorld {
  sent : list Request;
  files : str -> Node;
  writes : list (str * str);
  stdout : list str
}.

(** The world after one more request, nothing else touched. *)
Definition with_request (w : World) (rq : Request) : World :=
  mkWorld (sent w ++ [rq]) (files w) (writes w) (stdout w).

(** The world after one more [print] call that went through. *)
Definition with_line (w : World) (line : str) : World :=
  mkWorld (sent w) (files w) (writes w) (stdout w ++ [line]).

Definition M (A : Type) : Type := World -> Result A * World.

Definition ret {A} (a : A) : M A := fun w => (Ok a, w).
Definition raise {A} (e : PyExc) : M A := fun w => (Raise e, w).
Definition bind {A B} (m : M A) (k : A -> M B) : M B :=
  fun w => match m w with
           | (Ok a, w') => k a w'
           | (Raise e, w') => (Raise e, w')
           end.
Definition lift {A} (r : Result A) : M A := fun w => (r, w).

(** [try: m except c as e: h e] *)
Definition try_except {A} (m : M A) (c : ExcClass) (h : PyExc -> M A) : M A :=
  fun w => match m w with
           | (Ok a, w') => (Ok a, w')
           | (Raise e, w') => if isinstance e c then h e w' else (Raise e, w')
           end.

Declare Scope py_scope.
Delimit Scope py_scope with py.
Notation "x <- m ;; k" := (bind m (fun x => k))
  (at level 61, m at next level, right associativity) : py_scope.
Notation "m ;;; k" := (bind m (fun _ => k))
  (at level 61, right associativity) : py_scope.
Local Open Scope py_scope.

(** ** Completion client *)

Definition API_ENDPOINT : str := lit "http://localhost:5000/v1/completions".
Definition DEFAULT_MODEL : str := lit "text-davinci-003".
(** The float that Python reads for the literal [0.7]. *)
Definition DEFAULT_TEMPERATURE : float := 0x1.6666666666666p-1%float.

(** The module-level header map: the Authorization entry is added only for a
    key that is set and not empty. *)
Definition HEADERS (env : Env) : list (str * str) :=
  (lit "Content-Type", lit "application/json")
  :: match MY_API_KEY env with
     | Some (c :: k) => [(lit "Authorization", lit "Bearer " ++ c :: k)]
     | _ => []
     end.

(** [requests.post(url, headers=..., json=...)]: the call is recorded, then
    the service answers. *)
Definition requests_post (env : Env) (u : str) (h : list (str * str)) (p : Payload)
  : M HttpResponse :=
  fun w =>
    let rq := mkRequest u h p in
    let w' := with_request w rq in
    match respond env (sent w) rq with
    | TransportError m => (Raise (exc RequestException m), w')
    | Response r => (Ok r, w')
    | Raised c m _ => (Raise (exc c m), w')
    end.

(** [response.raise_for_status()] *)
Definition raise_for_status (r : HttpResponse) : Result unit :=
  let s := status_code r in
  if (400 <=? s)%Z && (s <? 500)%Z then
    Raise (exc HTTPError
             (str_of_int s ++ lit " Client Error: " ++ reason r ++ lit " for url: " ++ url r))
  else if (500 <=? s)%Z && (s <? 600)%Z then
    Raise (exc HTTPError
             (str_of_int s ++ lit " Server Error: " ++ reason r ++ lit " for url: " ++ url r))
  else Ok tt.

(** [response.json()] *)
Definition response_json (r : HttpResponse) : Result pyval :=
  match json r with
  | Decoded v => Ok v
  | NotJson m => Raise (exc JSONDecodeError m)
  | DecodeRaised c m _ => Raise (exc c m)
  end.

Definition bindR {A B} (r : Result A) (k : A -> Result B) : Result B :=
  match r with
  | Ok a => k a
  | Raise e => Raise e
  end.

(** [json_response.get("choices", [{}])[0].get("text", "")], before [.strip()] *)
Definition first_choice_text (json_response : pyval) : Result pyval :=
  bindR (py_get json_response (lit "choices") (PList [PDict []])) (fun choices =>
  bindR (py_getitem0 choices) (fun first =>
  py_get first (lit "text") (PStr []))).

Definition make_api_call (env : Env) (prompt : str) (max_tokens : Z)
    (temperature : float) (model : str) : M str :=
  let payload := mkPayload model (strip prompt) max_tokens temperature in
  try_except
    (response <- requests_post env API_ENDPOINT (HEADERS env) payload ;;
     lift (raise_for_status response) ;;;
     json_response <- lift (response_json response) ;;
     text <- lift (bindR (first_choice_text json_response) py_strip) ;;
     if is_empty text
     then raise (exc RuntimeError (lit "API returned an empty response."))
     else ret text)
    RequestException
    (fun e => raise (mkExc RuntimeError (lit "API call failed: " ++ exc_str e) (Some e))).

(** [make_api_call(prompt)] with the defaults of the signature. *)
Definition make_api_call_default (env : Env) (prompt : str) : M str :=
  make_api_call env prompt 1000 DEFAULT_TEMPERATURE DEFAULT_MODEL.

(** ** Translation orchestrator *)

Definition initial_prompt (source_text source_language target_language : str) : str :=
  nl ++ lit "Translate the following text from " ++ source_language ++ lit " to "
     ++ target_language ++ lit ":" ++ nl
     ++ source_text ++ nl
     ++ lit "Ensure the translation is accurate, fluent, and captures all nuances of the original text. " ++ nl
     ++ lit "Provide only the translation in " ++ target_language ++ lit "." ++ nl.

Definition refine_prompt (target_language initial_translation : str) : str :=
  nl ++ lit "Improve the following translation for accuracy and fluency. " ++ nl
     ++ lit "Make sure it captures the original meaning and reads naturally in "
     ++ target_language ++ lit ":" ++ nl
     ++ initial_translation ++ nl.

Definition compare_prompt (target_language initial_translation refined_translation : str) : str :=
  nl ++ lit "Between the two translations below, indicate which is better based on accuracy, fluency, " ++ nl
     ++ lit "and naturalness in " ++ target_language
     ++ lit ". Respond with 'Version 1' or 'Version 2':" ++ nl
     ++ lit "Version 1: " ++ initial_translation ++ nl
     ++ lit "Version 2: " ++ refined_translation ++ nl.

Definition translate_text (env : Env) (source_text source_language target_language : str)
  : M str :=
  initial_translation <-
    make_api_call_default env (initial_prompt source_text source_language target_language) ;;
  refined_translation <-
    make_api_call_default env (refine_prompt target_language initial_translation) ;;
  best_version <-
    make_api_call_default env
      (compare_prompt target_language initial_translation refined_translation) ;;
  if contains (lit "Version 1") best_version then ret initial_translation
  else if contains (lit "Version 2") best_version then ret refined_translation
  else raise (exc ValueError
                (lit "Unexpected output from API during comparison: " ++ best_version)).

(** ** Pipeline driver *)

(** The four positional arguments, as argparse hands them over. *)
Record Args : Type := mkArgs {
  infile : str;
  outfile : str;
  source_language : str;
  target_language : str
}.

Definition set_file (fs : str -> Node) (path : str) (n : Node) : str -> Node :=
  fun q => if str_eqb q path then n else fs q.

(** [with open(path, "r", encoding="utf-8") as f: f.read()] *)
Definition read_text (env : Env) (path : str) : M str :=
  fun w =>
    match files w path with
    | Missing _ => (Raise (os_exception env ENOENT path), w)
    | Directory => (Raise (os_exception env EISDIR path), w)
    | Blocked e _ => (Raise (os_exception env e path), w)
    | Regular false _ _ => (Raise (os_exception env EACCES path), w)
    | Regular true _ (Undecodable why) => (Raise (exc UnicodeDecodeError (lit why)), w)
    | Regular true _ (Text s) => (Ok s, w)
    end.

(** [open(path, "w", encoding="utf-8")]: creates the file or empties it, and
    returns its permission bits. *)
Definition open_w (env : Env) (path : str) : M (bool * bool) :=
  fun w =>
    let opened r wr :=
      (Ok (r, wr),
       mkWorld (sent w) (set_file (files w) path (Regular r wr (Text []))) (writes w) (stdout w)) in
    match files w path with
    | Missing false => (Raise (os_exception env ENOENT path), w)
    | Missing true => opened true true
    | Directory => (Raise (os_exception env EISDIR path), w)
    | Blocked _ e => (Raise (os_exception env e path), w)
    | Regular _ false _ => (Raise (os_exception env EACCES path), w)
    | Regular r true _ => opened r true
    end.

(** [f.write(text)] on the file just opened, and the close that follows. *)
Definition file_write (env : Env) (path : str) (perm : bool * bool) (text : str) : M unit :=
  fun w =>
    if utf8_encodable text then
      (Ok tt,
       mkWorld (sent w) (set_file (files w) path (Regular (fst perm) (snd perm) (Text text)))
               (writes w ++ [(path, text)]) (stdout w))
    else (Raise (exc UnicodeEncodeError (encode_error_text env text)), w).

(** [with open(path, "w", encoding="utf-8") as f: f.write(text)] *)
Definition write_text (env : Env) (path : str) (text : str) : M unit :=
  perm <- open_w env path ;;
  file_write env path perm text.

(** [print(text)]: standard output encodes as UTF-8, so a text with a lone
    surrogate raises UnicodeEncodeError and nothing is written. *)
Definition print (env : Env) (text : str) : M unit :=
  fun w =>
    if utf8_encodable text then (Ok tt, with_line w text)
    else (Raise (exc UnicodeEncodeError (encode_error_text env text)), w).

(** [exit(code)] *)
Definition exit {A} (code : Z) : M A := raise (exc (SystemExit code) (str_of_int code)).

(** The [except] clauses of a [try], tried in order. *)
Fixpoint dispatch {A} (handlers : list (ExcClass * (PyExc -> M A))) (e : PyExc) : M A :=
  match handlers with
  | [] => raise e
  | (c, h) :: rest => if isinstance e c then h e else dispatch rest e
  end.

Definition try_excepts {A} (m : M A) (handlers : list (ExcClass * (PyExc -> M A))) : M A :=
  fun w => match m w with
           | (Ok a, w') => (Ok a, w')
           | (Raise e, w') => dispatch handlers e w'
           end.

(** The body of the [try] in [main]. *)
Definition main_body (env : Env) (args : Args) : M unit :=
  source_text <- read_text env (infile args) ;;
  translated_text <-
    translate_text env source_text (source_language args) (target_language args) ;;
  write_text env (outfile args) translated_text.

Definition main (env : Env) (args : Args) : M unit :=
  try_excepts (main_body env args)
    [ (FileNotFoundError,
       fun e => print env (lit "Error: File not found - " ++ exc_str e) ;;; exit 1);
      (RuntimeError,
       fun e => print env (lit "Error during translation: " ++ exc_str e) ;;; exit 1);
      (ValueError,
       fun e => print env (lit "Translation error: " ++ exc_str e) ;;; exit 1);
      (Exception,
       fun e => print env (lit "Unexpected error: " ++ exc_str e) ;;; exit 1) ].

(** The exit status of the process that runs [main()]: the code of a
    SystemExit, and 1 for any other exception that nothing caught. *)
Definition exit_status (r : Result unit) : Z :=
  match r with
  | Ok _ => 0
  | Raise e => match exc_class e with SystemExit code => code | _ => 1 end
  end.

Definition run_main (env : Env) (args : Args) (w : World) : Z * World :=
  let (r, w') := main env args w in (exit_status r, w').

(** ** Vocabulary of the properties *)

(** A string with no white space at either end (the empty string included). *)
Definition no_outer_space (t : str) : bool :=
  match t with
  | [] => true
  | c :: _ => negb (isspace c) && negb (isspace (last t c))
  end.

(** The request [make_api_call] posts for a prompt under the default
    parameters. *)
Definition request_of (env : Env) (p : str) : Request :=
  mkRequest API_ENDPOINT (HEADERS env)
            (mkPayload DEFAULT_MODEL (strip p) 1000 DEFAULT_TEMPERATURE).

(** The text an answer of the service carries for the client, before
    trimming: the status is not an error status, the body decodes, and the
    first choice's text (under the defaults of the two [get] calls) is a
    string. *)
Definition http_text (r : HttpResult) : option str :=
  match r with
  | TransportError _ => None
  | Raised _ _ _ => None
  | Response resp =>
      match raise_for_status resp, bindR (response_json resp) first_choice_text with
      | Ok _, Ok (PStr t) => Some t
      | _, _ => None
      end
  end.

Definition empty_response_error : PyExc :=
  exc RuntimeError (lit "API returned an empty response.").

Definition step1_request (env : Env) (src sl tl : str) : Request :=
  request_of env (initial_prompt src sl tl).
Definition step2_request (env : Env) (tl a : str) : Request :=
  request_of env (refine_prompt tl a).
Definition step3_request (env : Env) (tl a b : str) : Request :=
  request_of env (compare_prompt tl a b).

(** The service answers the initial-translation request with text [t1]. *)
Definition step1_text (env : Env) (src sl tl : str) (w : World) (t1 : str) : Prop :=
  http_text (respond env (sent w) (step1_request env src sl tl)) = Some t1.

(** Step 1 yields a candidate and the service answers the refinement request
    with text [t2]. *)
Definition step2_text (env : Env) (src sl tl : str) (w : World) (t1 t2 : str) : Prop :=
  step1_text env src sl tl w t1
  /\ is_empty (strip t1) = false
  /\ http_text (respond env (sent w ++ [step1_request env src sl tl])
                        (step2_request env tl (strip t1))) = Some t2.

(** Steps 1 and 2 yield candidates and the service answers the arbitration
    request with text [t3]. *)
Definition step3_text (env : Env) (src sl tl : str) (w : World) (t1 t2 t3 : str) : Prop :=
  step2_text env src sl tl w t1 t2
  /\ is_empty (strip t2) = false
  /\ http_text (respond env (sent w ++ [step1_request env src sl tl;
                                        step2_request env tl (strip t1)])
                        (step3_request env tl (strip t1) (strip t2))) = Some t3.

(** [open(path, "r")] succeeds on this entry. *)
Definition opens_for_reading (n : Node) : bool :=
  match n with
  | Regular true _ _ => true
  | _ => false
  end.

(** What [main] puts before the text of the error [open] reports. *)
Definition open_failure_prefix (e : OsError) : str :=
  match e with
  | ENOENT => lit "Error: File not found - "
  | _ => lit "Unexpected error: "
  end.

(** The world after [print(text)], whether it went through or raised. *)
Definition after_print (w : World) (text : str) : World :=
  if utf8_encodable text then with_line w text else w.

(** The line [main] prints for an exception caught by its handlers. *)
Definition diagnostic (e : PyExc) : str :=
  if isinstance e FileNotFoundError then lit "Error: File not found - " ++ exc_str e
  else if isinstance e RuntimeError then lit "Error during translation: " ++ exc_str e
  else if isinstance e ValueError then lit "Translation error: " ++ exc_str e
  else lit "Unexpected error: " ++ exc_str e.

(** ** Test doubles *)

(** A 200 answer with the given decoded body. *)
Definition json_answer (j : pyval) : HttpResult :=
  Response (mkResponse 200 (lit "OK") API_ENDPOINT (Decoded j)).

(** A well-formed answer with one choice. *)
Definition text_response (t : str) : HttpResult :=
  json_answer (PDict [(lit "choices", PList [PDict [(lit "text", PStr t)]])]).

(** Header names and values go over the wire in Latin-1. *)
Definition latin1 (s : str) : bool := forallb (fun c => (c <? 256)%N) s.

Definition headers_encodable (rq : Request) : bool :=
  forallb (fun nv => latin1 (fst nv) && latin1 (snd nv)) (req_headers rq).

(** A server as [requests.post] reaches it: a request with a header outside
    Latin-1 never leaves the client, which raises UnicodeEncodeError. *)
Definition through_requests (server : list Request -> Request -> HttpResult)
  : list Request -> Request -> HttpResult :=
  fun h rq =>
    if headers_encodable rq then server h rq
    else Raised UnicodeEncodeError
                (lit "'latin-1' codec can't encode characters: ordinal not in range(256)")
                eq_refl.

(** A service that answers the n-th request with the n-th text of a script. *)
Definition scripted (answers : list str) : list Request -> Request -> HttpResult :=
  through_requests
    (fun h _ =>
       match nth_error answers (List.length h) with
       | Some t => text_response t
       | None => TransportError (lit "connection refused")
       end).

(** The error texts of Linux. *)
Definition posix_error_head (e : OsError) : string :=
  match e with
  | ENOENT => "[Errno 2] No such file or directory"
  | EACCES => "[Errno 13] Permission denied"
  | EISDIR => "[Errno 21] Is a directory"
  | ENOTDIR => "[Errno 20] Not a directory"
  | ENAMETOOLONG => "[Errno 36] File name too long"
  | ELOOP => "[Errno 40] Too many levels of symbolic links"
  end%string.

Definition surrogates_not_allowed (text : str) : string :=
  "'utf-8' codec can't encode characters: surrogates not allowed"%string.

(** An environment on Linux with no API key and the given service. *)
Definition service_env (service : list Request -> Request -> HttpResult) : Env :=
  mkEnv None service posix_error_head surrogates_not_allowed (fun _ => true).

Definition mock_env (answers : list str) : Env := service_env (scripted answers).

(** A service that is a fixed function of the prompt. *)
Definition prompt_env (f : str -> HttpResult) : Env :=
  service_env (fun _ rq => f (prompt (req_json rq))).

Definition empty_world : World := mkWorld [] (fun _ => Missing true) [] [].

(** ** Further vocabulary *)

(** The first character exists and is not white space. *)
Definition head_visible (s : str) : bool :=
  match s with
  | [] => false
  | c :: _ => negb (isspace c)
  end.

(** The last character exists and is not white space. *)
Definition last_visible (s : str) : bool := head_visible (rev s).

(** The three templates without the newline that opens and the newline that
    closes each of them. *)
Definition initial_text (source_text source_language target_language : str) : str :=
  lit "Translate the following text from " ++ source_language ++ lit " to "
     ++ target_language ++ lit ":" ++ nl
     ++ source_text ++ nl
     ++ lit "Ensure the translation is accurate, fluent, and captures all nuances of the original text. " ++ nl
     ++ lit "Provide only the translation in " ++ target_language ++ lit ".".

Definition refine_text (target_language initial_translation : str) : str :=
  lit "Improve the following translation for accuracy and fluency. " ++ nl
     ++ lit "Make sure it captures the original meaning and reads naturally in "
     ++ target_language ++ lit ":" ++ nl
     ++ initial_translation.

Definition compare_text (target_language initial_translation refined_translation : str) : str :=
  lit "Between the two translations below, indicate which is better based on accuracy, fluency, " ++ nl
     ++ lit "and naturalness in " ++ target_language
     ++ lit ". Respond with 'Version 1' or 'Version 2':" ++ nl
     ++ lit "Version 1: " ++ initial_translation ++ nl
     ++ lit "Version 2: " ++ refined_translation.

(** A request with the endpoint, the headers and the generation parameters
    that [make_api_call(prompt)] uses. *)
Definition default_shaped (env : Env) (rq : Request) : Prop :=
  req_url rq = API_ENDPOINT
  /\ req_headers rq = HEADERS env
  /\ model (req_json rq) = DEFAULT_MODEL
  /\ max_tokens (req_json rq) = 1000%Z
  /\ temperature (req_json rq) = DEFAULT_TEMPERATURE.

(** [open(path, "w")] succeeds on this entry. *)
Definition opens_for_writing (n : Node) : bool :=
  match n with
  | Missing true => true
  | Regular _ true _ => true
  | _ => false
  end.

(** A file system whose only entry is the given node at the given path, in
    a directory where new files can be created. *)
Definition one_entry (path : str) (n : Node) : World :=
  mkWorld [] (set_file (fun _ => Missing true) path n) [] [].

Definition en_fr (i o : str) : Args := mkArgs i o (lit "English") (lit "French").

(** * Properties *)

(** ** Strings *)

Lemma str_eqb_eq (a b : str) : str_eqb a b = true <-> a = b.
Proof.
  revert b. induction a as [|x a IH]; intros [|y b]; simpl; split; intro H;
    try reflexivity; try discriminate.
  - apply andb_true_iff in H as [Hx Ha]. apply N.eqb_eq in Hx.
    apply IH in Ha. now subst.
  - injection H as -> ->. rewrite N.eqb_refl. simpl. now apply IH.
Qed.

Lemma str_eqb_refl (a : str) : str_eqb a a = true.
Proof. now apply str_eqb_eq. Qed.

Lemma startswith_spec (p s : str) :
  startswith p s = true <-> exists r, s = p ++ r.
Proof.
  revert s. induction p as [|a p IH]; intros s; simpl.
  - split; [intros _; now exists s | reflexivity].
  - destruct s as [|b s].
    + split; [discriminate | intros [r Hr]; discriminate].
    + rewrite andb_true_iff, N.eqb_eq, IH. split.
      * intros [-> [r ->]]. now exists r.
      * intros [r Hr]. injection Hr as -> ->. split; [reflexivity | now exists r].
Qed.

Lemma contains_spec (p s : str) :
  contains p s = true <-> exists l r, s = l ++ p ++ r.
Proof.
  induction s as [|c s IH]; simpl.
  - rewrite orb_false_r, startswith_spec. split.
    + intros [r Hr]. now exists [], r.
    + intros [l [r H]]. symmetry in H. apply app_eq_nil in H as [-> H].
      apply app_eq_nil in H as [-> ->]. now exists [].
  - rewrite orb_true_iff, startswith_spec, IH. split.
    + intros [[r Hr] | [l [r Hr]]].
      * now exists [], r.
      * exists (c :: l), r. simpl. now rewrite Hr.
    + intros [[|x l] [r Hr]].
      * left. now exists r.
      * right. injection Hr as _ ->. now exists l, r.
Qed.

Lemma contains_rev (p s : str) : contains (rev p) (rev s) = contains p s.
Proof.
  assert (H : forall p s, contains p s = true -> contains (rev p) (rev s) = true).
  { intros p0 s0 H0. apply contains_spec in H0 as [l [r ->]].
    apply contains_spec. exists (rev r), (rev l).
    now rewrite !rev_app_distr, app_assoc. }
  destruct (contains p s) eqn:E.
  - now apply H.
  - destruct (contains (rev p) (rev s)) eqn:E'; [|reflexivity].
    apply H in E'. rewrite !rev_involutive in E'. congruence.
Qed.

Lemma lstrip_split (s : str) :
  exists l, s = l ++ lstrip s /\ forallb isspace l = true.
Proof.
  induction s as [|c s [l [Hs Hl]]]; simpl.
  - now exists [].
  - destruct (isspace c) eqn:E.
    + exists (c :: l). simpl. rewrite E, Hl. split; [now f_equal | reflexivity].
    + now exists [].
Qed.

Lemma lstrip_head (s : str) (c : char) (t : str) :
  lstrip s = c :: t -> isspace c = false.
Proof.
  induction s as [|x s IH]; simpl; [discriminate|].
  destruct (isspace x) eqn:E; [exact IH|].
  intros H. injection H as -> _. exact E.
Qed.

(** Stripping on the left keeps every occurrence of a needle that starts
    with a visible character. *)
Lemma contains_lstrip (a : char) (p s : str) :
  isspace a = false -> contains (a :: p) (lstrip s) = contains (a :: p) s.
Proof.
  intros Ha. induction s as [|c s IH]; [reflexivity|].
  cbn [lstrip]. destruct (isspace c) eqn:Ec; [|reflexivity].
  rewrite IH. cbn [contains startswith].
  destruct (N.eqb_spec a c) as [->|_]; [congruence | reflexivity].
Qed.

Lemma contains_rstrip (p s : str) (z : char) :
  p <> [] -> isspace (last p z) = false ->
  contains p (rstrip s) = contains p s.
Proof.
  intros Hp Hz. unfold rstrip.
  rewrite <- (rev_involutive p) at 1. rewrite contains_rev.
  destruct (rev p) as [|a q] eqn:E.
  - apply (f_equal (@rev _)) in E. rewrite rev_involutive in E. now subst.
  - assert (Ha : isspace a = false).
    { apply (f_equal (@rev _)) in E. rewrite rev_involutive in E. simpl in E.
      subst p. now rewrite last_last in Hz. }
    rewrite (contains_lstrip a q (rev s) Ha), <- E. apply contains_rev.
Qed.

(** [strip] neither hides nor creates an occurrence of a needle whose first
    and last characters are visible. *)
Lemma contains_strip (a : char) (p s : str) :
  isspace a = false -> isspace (last (a :: p) a) = false ->
  contains (a :: p) (strip s) = contains (a :: p) s.
Proof.
  intros Ha Hz. unfold strip.
  rewrite (contains_rstrip (a :: p) (lstrip s) a); [|discriminate|exact Hz].
  now apply contains_lstrip.
Qed.

Lemma contains_Version_1_strip (s : str) :
  contains (lit "Version 1") (strip s) = contains (lit "Version 1") s.
Proof. apply (contains_strip 86%N); reflexivity. Qed.

Lemma contains_Version_2_strip (s : str) :
  contains (lit "Version 2") (strip s) = contains (lit "Version 2") s.
Proof. apply (contains_strip 86%N); reflexivity. Qed.

Lemma contains_suffix (l p : str) : contains p (l ++ p) = true.
Proof. apply contains_spec. exists l, []. now rewrite app_nil_r. Qed.

Lemma forallb_rev {A} (f : A -> bool) (l : list A) :
  forallb f l = true -> forallb f (rev l) = true.
Proof.
  rewrite !forallb_forall. intros H x Hx. apply H. now apply in_rev.
Qed.

Lemma rstrip_split (s : str) :
  exists r, s = rstrip s ++ r /\ forallb isspace r = true.
Proof.
  destruct (lstrip_split (rev s)) as [l [Hs Hl]].
  exists (rev l). split; [|now apply forallb_rev].
  unfold rstrip. rewrite <- rev_app_distr, <- Hs. symmetry. apply rev_involutive.
Qed.

(** [strip] removes a run of white space at each end and nothing else. *)
Lemma strip_split (s : str) :
  exists l r, s = l ++ strip s ++ r
              /\ forallb isspace l = true /\ forallb isspace r = true.
Proof.
  destruct (lstrip_split s) as [l [Hs Hl]].
  destruct (rstrip_split (lstrip s)) as [r [Hs' Hr]].
  exists l, r. unfold strip. now rewrite <- Hs', <- Hs.
Qed.

Lemma rstrip_last (s : str) (c : char) (t : str) :
  rstrip s = c :: t -> isspace (last (c :: t) c) = false.
Proof.
  unfold rstrip. intros H.
  apply (f_equal (@rev _)) in H. rewrite rev_involutive in H.
  destruct (exists_last (l := c :: t)) as [u [x Hu]]; [discriminate|].
  rewrite Hu in *. rewrite last_last. rewrite rev_app_distr in H. simpl in H.
  now apply lstrip_head in H.
Qed.

Lemma strip_no_outer_space (s : str) : no_outer_space (strip s) = true.
Proof.
  unfold no_outer_space. destruct (strip s) as [|c t] eqn:E; [reflexivity|].
  assert (Hc : isspace c = false).
  { destruct (rstrip_split (lstrip s)) as [r [Hr _]]. fold (strip s) in Hr.
    rewrite E in Hr. simpl in Hr. now apply lstrip_head in Hr. }
  unfold strip in E. apply rstrip_last in E. now rewrite Hc, E.
Qed.

(** ** Texts that UTF-8 can encode *)

Lemma utf8_encodable_app (a b : str) :
  utf8_encodable (a ++ b) = utf8_encodable a && utf8_encodable b.
Proof. apply forallb_app. Qed.

Lemma below_surrogates (c : char) : (c < 55296)%N -> is_surrogate c = false.
Proof.
  intros H. unfold is_surrogate. apply andb_false_iff. left. now apply N.leb_gt.
Qed.

Lemma lit_encodable (s : string) : utf8_encodable (lit s) = true.
Proof.
  induction s as [|a s IH]; [reflexivity|].
  change (lit (String a s)) with (N_of_ascii a :: lit s).
  cbn [utf8_encodable forallb]. fold (utf8_encodable (lit s)). rewrite IH, andb_true_r.
  apply negb_true_iff, below_surrogates.
  pose proof (N_ascii_bounded a). lia.
Qed.

Lemma hex_fixed_encodable (k : nat) (n : N) : utf8_encodable (hex_fixed k n) = true.
Proof.
  revert n. induction k as [|k IH]; intros n; [reflexivity|].
  cbn [hex_fixed]. rewrite utf8_encodable_app, IH. cbn.
  rewrite andb_true_r. apply negb_true_iff, below_surrogates.
  assert (n mod 16 < 16)%N by (apply N.mod_lt; discriminate).
  unfold hex_digit. destruct (n mod 16 <? 10)%N; lia.
Qed.

Lemma repr_char_encodable (pr : char -> bool) (q c : char) :
  (forall x, pr x = true -> is_surrogate x = false) ->
  (q < 128)%N ->
  utf8_encodable (repr_char pr q c) = true.
Proof.
  intros P Q. unfold repr_char.
  assert (A : forall x y, (x < 128)%N -> (y < 128)%N ->
                          utf8_encodable (x :: y :: hex_fixed 0 0) = true).
  { intros x y Hx Hy. cbn. rewrite !below_surrogates by lia. reflexivity. }
  destruct ((c =? q) || (c =? 92))%N eqn:E1.
  { apply orb_true_iff in E1 as [E|E]; apply N.eqb_eq in E; subst c; apply A; lia. }
  destruct (c =? 9)%N; [reflexivity|].
  destruct (c =? 10)%N; [reflexivity|].
  destruct (c =? 13)%N; [reflexivity|].
  destruct ((c <? 32) || (c =? 127))%N.
  { change ([92; 120] ++ hex_fixed 2 c)%N with ([92; 120]%N ++ hex_fixed 2 c).
    now rewrite utf8_encodable_app, hex_fixed_encodable. }
  destruct (c <? 127)%N eqn:E2.
  { apply N.ltb_lt in E2. cbn. rewrite below_surrogates by lia. reflexivity. }
  destruct (pr c) eqn:E3.
  { cbn. now rewrite (P c E3). }
  destruct (c <=? 255)%N; [|destruct (c <=? 65535)%N];
    rewrite utf8_encodable_app, hex_fixed_encodable; reflexivity.
Qed.

Lemma py_repr_encodable (pr : char -> bool) (s : str) :
  (forall x, pr x = true -> is_surrogate x = false) ->
  utf8_encodable (py_repr pr s) = true.
Proof.
  intros P. unfold py_repr.
  set (q := (if existsb (N.eqb 39) s && negb (existsb (N.eqb 34) s) then 34 else 39)%N).
  assert (Q : (q < 128)%N) by (subst q; destruct (_ && _); lia).
  clearbody q. rewrite !utf8_encodable_app.
  assert (F : forall l, utf8_encodable (flat_map (repr_char pr q) l) = true).
  { induction l as [|c l IH]; [reflexivity|].
    cbn [flat_map]. now rewrite utf8_encodable_app, repr_char_encodable, IH. }
  rewrite F. cbn. rewrite below_surrogates by lia. reflexivity.
Qed.

(** The text of an OSError never holds a lone surrogate: [repr] escapes
    them. *)
Lemma os_error_text_encodable (env : Env) (e : OsError) (path : str) :
  utf8_encodable (os_error_text env e path) = true.
Proof.
  unfold os_error_text, path_repr.
  rewrite !utf8_encodable_app, !lit_encodable, py_repr_encodable; [reflexivity|].
  intros x H. apply andb_true_iff in H as [_ H]. now apply negb_true_iff in H.
Qed.

Lemma prefixed_encodable (pre : string) (text : str) :
  utf8_encodable (lit pre ++ text) = utf8_encodable text.
Proof. now rewrite utf8_encodable_app, lit_encodable. Qed.

Lemma after_print_encodable (w : World) (text : str) :
  utf8_encodable text = true -> after_print w text = with_line w text.
Proof. unfold after_print. now intros ->. Qed.

Lemma after_print_sent (w : World) (text : str) : sent (after_print w text) = sent w.
Proof. unfold after_print. now destruct (utf8_encodable text). Qed.

Lemma after_print_files (w : World) (text : str) : files (after_print w text) = files w.
Proof. unfold after_print. now destruct (utf8_encodable text). Qed.

Lemma after_print_writes (w : World) (text : str) : writes (after_print w text) = writes w.
Proof. unfold after_print. now destruct (utf8_encodable text). Qed.

(** ** The completion client *)

Ltac run_client :=
  unfold make_api_call_default, make_api_call, try_except, bind, lift, ret, raise,
    requests_post; cbn [fst snd].

(** A branch in which [requests.post] itself raised: caught or not, the
    goal is the same on both sides of the handler's test. *)
Ltac post_raised tac :=
  cbv beta iota; destruct (isinstance _ RequestException); tac.

(** Whatever the service answers, a call posts exactly one request and
    touches nothing else. *)
Lemma make_api_call_world (env : Env) (p : str) (mt : Z) (T : float) (m : str) (w : World) :
  snd (make_api_call env p mt T m w)
  = with_request w (mkRequest API_ENDPOINT (HEADERS env) (mkPayload m (strip p) mt T)).
Proof.
  run_client.
  destruct (respond env (sent w) _) as [msg|resp|c0 m0 X0];
    [reflexivity | | post_raised reflexivity].
  destruct (raise_for_status resp) as [[]|e]; [|destruct (isinstance e _); reflexivity].
  destruct (response_json resp) as [j|e]; [|destruct (isinstance e _); reflexivity].
  destruct (bindR (first_choice_text j) py_strip) as [t|e];
    [|destruct (isinstance e _); reflexivity].
  destruct (is_empty t); reflexivity.
Qed.

(** The returned value when the answer carries a text. *)
Lemma make_api_call_text (env : Env) (p : str) (mt : Z) (T : float) (m : str) (w : World)
    (t : str) :
  http_text (respond env (sent w)
               (mkRequest API_ENDPOINT (HEADERS env) (mkPayload m (strip p) mt T))) = Some t ->
  fst (make_api_call env p mt T m w)
  = if is_empty (strip t) then Raise empty_response_error else Ok (strip t).
Proof.
  run_client. unfold http_text.
  destruct (respond env (sent w) _) as [msg|resp|c0 m0 X0]; [discriminate| |discriminate].
  destruct (raise_for_status resp) as [[]|e]; [|discriminate].
  destruct (response_json resp) as [j|e]; [|discriminate].
  cbn [bindR]. destruct (first_choice_text j) as [[]|e]; try discriminate.
  intros H. injection H as ->. cbn [bindR py_strip].
  destruct (is_empty (strip t)); reflexivity.
Qed.

(** Conversely, a returned value is the trimmed text of the answer. *)
Lemma make_api_call_ok (env : Env) (p : str) (mt : Z) (T : float) (m : str) (w : World)
    (x : str) :
  fst (make_api_call env p mt T m w) = Ok x ->
  exists t,
    http_text (respond env (sent w)
                 (mkRequest API_ENDPOINT (HEADERS env) (mkPayload m (strip p) mt T))) = Some t
    /\ x = strip t /\ is_empty x = false.
Proof.
  run_client. unfold http_text.
  destruct (respond env (sent w) _) as [msg|resp|c0 m0 X0];
    [discriminate | | post_raised discriminate].
  destruct (raise_for_status resp) as [[]|e]; [|destruct (isinstance e _); discriminate].
  destruct (response_json resp) as [j|e]; [|destruct (isinstance e _); discriminate].
  cbn [bindR].
  destruct (first_choice_text j) as [v|e]; cbn [bindR];
    [|destruct (isinstance e RequestException); discriminate].
  destruct v; cbn [py_strip];
    try (destruct (isinstance _ RequestException); discriminate).
  destruct (is_empty (strip s)) eqn:E; cbn; [discriminate|].
  intros H. injection H as <-. now exists s.
Qed.

(** The returned value depends on the world only through the answer of the
    service. *)
Lemma make_api_call_same_answer (env1 env2 : Env) (p : str) (mt : Z) (T : float) (m : str)
    (w1 w2 : World) :
  respond env1 (sent w1)
    (mkRequest API_ENDPOINT (HEADERS env1) (mkPayload m (strip p) mt T))
  = respond env2 (sent w2)
      (mkRequest API_ENDPOINT (HEADERS env2) (mkPayload m (strip p) mt T)) ->
  fst (make_api_call env1 p mt T m w1) = fst (make_api_call env2 p mt T m w2).
Proof.
  run_client. intros ->.
  destruct (respond env2 (sent w2) _) as [msg|resp|c0 m0 X0];
    [reflexivity | | post_raised reflexivity].
  destruct (raise_for_status resp) as [[]|e]; [|destruct (isinstance e _); reflexivity].
  destruct (response_json resp) as [j|e]; [|destruct (isinstance e _); reflexivity].
  destruct (bindR (first_choice_text j) py_strip) as [t|e];
    [|destruct (isinstance e _); reflexivity].
  destruct (is_empty t); reflexivity.
Qed.

Lemma make_api_call_default_run (env : Env) (p : str) (w : World) (t : str) :
  http_text (respond env (sent w) (request_of env p)) = Some t ->
  make_api_call_default env p w
  = (if is_empty (strip t) then Raise empty_response_error else Ok (strip t),
     with_request w (request_of env p)).
Proof.
  intros H. unfold make_api_call_default.
  rewrite (surjective_pairing (make_api_call _ _ _ _ _ _)).
  rewrite make_api_call_world. f_equal. now apply make_api_call_text.
Qed.

(** ** The orchestrator *)

Lemma sent_two_requests (w : World) (r1 r2 : Request) :
  sent (with_request (with_request w r1) r2) = sent w ++ [r1; r2].
Proof. cbn. now rewrite <- app_assoc. Qed.

(** With three texts from the service, the outcome is decided by the trimmed
    verdict alone. *)
Lemma translate_text_run (env : Env) (src sl tl : str) (w : World) (t1 t2 t3 : str) :
  step3_text env src sl tl w t1 t2 t3 ->
  is_empty (strip t3) = false ->
  translate_text env src sl tl w
  = (if contains (lit "Version 1") (strip t3) then Ok (strip t1)
     else if contains (lit "Version 2") (strip t3) then Ok (strip t2)
     else Raise (exc ValueError
                   (lit "Unexpected output from API during comparison: " ++ strip t3)),
     with_request
       (with_request (with_request w (step1_request env src sl tl))
                     (step2_request env tl (strip t1)))
       (step3_request env tl (strip t1) (strip t2))).
Proof.
  intros [[H1 [E1 H2]] [E2 H3]] E3.
  unfold step1_text in H1. unfold translate_text, bind.
  unfold step1_request, step2_request, step3_request in *.
  rewrite (make_api_call_default_run env _ w t1 H1), E1.
  rewrite (make_api_call_default_run env (refine_prompt tl (strip t1))
             (with_request w (request_of env (initial_prompt src sl tl))) t2 H2), E2.
  rewrite (make_api_call_default_run env (compare_prompt tl (strip t1) (strip t2))
             (with_request (with_request w (request_of env (initial_prompt src sl tl)))
                           (request_of env (refine_prompt tl (strip t1)))) t3), E3.
  - destruct (contains (lit "Version 1") (strip t3)); [reflexivity|].
    destruct (contains (lit "Version 2") (strip t3)); reflexivity.
  - rewrite sent_two_requests. exact H3.
Qed.

(** C1: when the service answers the three steps with non-empty text,
    [translate_text] returns the initial translation (Candidate A) if the
    arbitration answer contains "Version 1", and otherwise the refined
    translation (Candidate B) if it contains "Version 2". *)
Theorem translate_text_returns_labelled_candidate
    (env : Env) (src sl tl : str) (w : World) (t1 t2 t3 : str) :
  step3_text env src sl tl w t1 t2 t3 ->
  is_empty (strip t3) = false ->
  (contains (lit "Version 1") t3 = true ->
   fst (translate_text env src sl tl w) = Ok (strip t1))
  /\ (contains (lit "Version 1") t3 = false ->
      contains (lit "Version 2") t3 = true ->
      fst (translate_text env src sl tl w) = Ok (strip t2)).
Proof.
  intros H3 E3. rewrite (translate_text_run env src sl tl w t1 t2 t3 H3 E3).
  rewrite contains_Version_1_strip, contains_Version_2_strip. cbn [fst].
  split.
  - now intros ->.
  - now intros -> ->.
Qed.

Lemma translate_text_returns_labelled_candidate_witness :
  fst (translate_text
         (mock_env [lit " Bonjour le monde "; lit "Bonjour, le monde"; lit "Version 2 is better"])
         (lit "Hello world") (lit "English") (lit "French") empty_world)
  = Ok (lit "Bonjour, le monde").
Proof.
  apply (translate_text_returns_labelled_candidate
           (mock_env [lit " Bonjour le monde "; lit "Bonjour, le monde";
                      lit "Version 2 is better"])
           (lit "Hello world") (lit "English") (lit "French") empty_world
           (lit " Bonjour le monde ") (lit "Bonjour, le monde") (lit "Version 2 is better"));
    [ repeat split; vm_compute; reflexivity | reflexivity | reflexivity | reflexivity ].
Defined.

(** C4: an arbitration answer that contains both "Version 1" and
    "Version 2" selects the initial translation (Candidate A): the
    "Version 1" test comes first. *)
Theorem translate_text_prefers_version_1
    (env : Env) (src sl tl : str) (w : World) (t1 t2 t3 : str) :
  step3_text env src sl tl w t1 t2 t3 ->
  contains (lit "Version 1") t3 = true ->
  contains (lit "Version 2") t3 = true ->
  fst (translate_text env src sl tl w) = Ok (strip t1).
Proof.
  intros H3 V1 _.
  assert (E3 : is_empty (strip t3) = false).
  { rewrite <- contains_Version_1_strip in V1.
    destruct (strip t3); [discriminate V1 | reflexivity]. }
  rewrite (translate_text_run env src sl tl w t1 t2 t3 H3 E3).
  now rewrite contains_Version_1_strip, V1.
Qed.

Lemma translate_text_prefers_version_1_witness :
  fst (translate_text
         (mock_env [lit "Bonjour le monde"; lit "Bonjour, le monde";
                    lit "Version 2 reads better than Version 1"])
         (lit "Hello world") (lit "English") (lit "French") empty_world)
  = Ok (lit "Bonjour le monde").
Proof.
  apply (translate_text_prefers_version_1
           (mock_env [lit "Bonjour le monde"; lit "Bonjour, le monde";
                      lit "Version 2 reads better than Version 1"])
           (lit "Hello world") (lit "English") (lit "French") empty_world
           (lit "Bonjour le monde") (lit "Bonjour, le monde")
           (lit "Version 2 reads better than Version 1"));
    [ repeat split; vm_compute; reflexivity | reflexivity | reflexivity ].
Defined.

(** C5: a verdict that contains neither "Version 1" nor "Version 2" makes
    [translate_text] raise ValueError, and the message carries the verdict
    text as the client returned it. *)
Theorem translate_text_rejects_unlabelled_verdict
    (env : Env) (src sl tl : str) (w : World) (t1 t2 t3 : str) :
  step3_text env src sl tl w t1 t2 t3 ->
  is_empty (strip t3) = false ->
  contains (lit "Version 1") (strip t3) = false ->
  contains (lit "Version 2") (strip t3) = false ->
  exists e,
    fst (translate_text env src sl tl w) = Raise e
    /\ exc_class e = ValueError
    /\ exc_str e = lit "Unexpected output from API during comparison: " ++ strip t3
    /\ contains (strip t3) (exc_str e) = true.
Proof.
  intros H3 E3 V1 V2.
  rewrite (translate_text_run env src sl tl w t1 t2 t3 H3 E3), V1, V2.
  eexists. split; [reflexivity|]. cbn [exc exc_class exc_str].
  repeat split. apply contains_suffix.
Qed.

Lemma translate_text_rejects_unlabelled_verdict_witness :
  exists e,
    fst (translate_text
           (mock_env [lit "Bonjour le monde"; lit "Bonjour, le monde"; lit "Neither one"])
           (lit "Hello world") (lit "English") (lit "French") empty_world) = Raise e
    /\ exc_class e = ValueError
    /\ exc_str e = lit "Unexpected output from API during comparison: Neither one"
    /\ contains (lit "Neither one") (exc_str e) = true.
Proof.
  apply (translate_text_rejects_unlabelled_verdict
           (mock_env [lit "Bonjour le monde"; lit "Bonjour, le monde"; lit "Neither one"])
           (lit "Hello world") (lit "English") (lit "French") empty_world
           (lit "Bonjour le monde") (lit "Bonjour, le monde") (lit "Neither one"));
    [ repeat split; vm_compute; reflexivity | reflexivity | reflexivity | reflexivity ].
Defined.

(** C2: when the text the service returns for one of the three steps is
    empty after trimming, [translate_text] raises the client's RuntimeError
    and the requests sent are those up to the failing step, no more. *)
Theorem translate_text_aborts_on_empty_completion
    (env : Env) (src sl tl : str) (w : World) :
  (forall t1,
      step1_text env src sl tl w t1 -> is_empty (strip t1) = true ->
      translate_text env src sl tl w
      = (Raise empty_response_error, with_request w (step1_request env src sl tl)))
  /\ (forall t1 t2,
         step2_text env src sl tl w t1 t2 -> is_empty (strip t2) = true ->
         translate_text env src sl tl w
         = (Raise empty_response_error,
            with_request (with_request w (step1_request env src sl tl))
                         (step2_request env tl (strip t1))))
  /\ (forall t1 t2 t3,
         step3_text env src sl tl w t1 t2 t3 -> is_empty (strip t3) = true ->
         translate_text env src sl tl w
         = (Raise empty_response_error,
            with_request
              (with_request (with_request w (step1_request env src sl tl))
                            (step2_request env tl (strip t1)))
              (step3_request env tl (strip t1) (strip t2)))).
Proof.
  unfold step3_text, step2_text, step1_text, step1_request, step2_request, step3_request.
  repeat split.
  - intros t1 H1 E1. unfold translate_text, bind.
    now rewrite (make_api_call_default_run env _ w t1 H1), E1.
  - intros t1 t2 [H1 [E1 H2]] E2. unfold translate_text, bind.
    rewrite (make_api_call_default_run env _ w t1 H1), E1.
    now rewrite (make_api_call_default_run env (refine_prompt tl (strip t1))
                   (with_request w (request_of env (initial_prompt src sl tl))) t2 H2), E2.
  - intros t1 t2 t3 [[H1 [E1 H2]] [E2 H3]] E3. unfold translate_text, bind.
    rewrite (make_api_call_default_run env _ w t1 H1), E1.
    rewrite (make_api_call_default_run env (refine_prompt tl (strip t1))
               (with_request w (request_of env (initial_prompt src sl tl))) t2 H2), E2.
    rewrite (make_api_call_default_run env (compare_prompt tl (strip t1) (strip t2))
               (with_request (with_request w (request_of env (initial_prompt src sl tl)))
                             (request_of env (refine_prompt tl (strip t1)))) t3), E3.
    + reflexivity.
    + rewrite sent_two_requests. exact H3.
Qed.

Lemma translate_text_aborts_on_empty_completion_witness :
  let env := mock_env [lit "Bonjour le monde"; [32; 10; 9]%N; lit "Version 1"] in
  exists w',
    translate_text env (lit "Hello world") (lit "English") (lit "French") empty_world
    = (Raise empty_response_error, w')
    /\ List.length (sent w') = 2%nat.
Proof.
  intro env. eexists. split.
  - apply (proj1 (proj2 (translate_text_aborts_on_empty_completion
                           env (lit "Hello world") (lit "English") (lit "French")
                           empty_world))
             (lit "Bonjour le monde") [32; 10; 9]%N);
      [ repeat split; vm_compute; reflexivity | reflexivity ].
  - reflexivity.
Defined.

(** C7: a string returned by [make_api_call], and so a string returned by
    [translate_text], is not empty and has no white space at either end. *)
Theorem returned_text_is_nonempty_and_trimmed (env : Env) :
  (forall p mt T m w t,
      fst (make_api_call env p mt T m w) = Ok t ->
      is_empty t = false /\ no_outer_space t = true /\ strip t = t)
  /\ (forall src sl tl w t,
         fst (translate_text env src sl tl w) = Ok t ->
         is_empty t = false /\ no_outer_space t = true /\ strip t = t).
Proof.
  assert (C : forall p mt T m w t,
             fst (make_api_call env p mt T m w) = Ok t ->
             is_empty t = false /\ no_outer_space t = true /\ strip t = t).
  { intros p mt T m w t H. apply make_api_call_ok in H as [raw [_ [-> E]]].
    split; [exact E|]. pose proof (strip_no_outer_space raw) as N.
    split; [exact N|].
    unfold no_outer_space in N. destruct (strip raw) as [|c u] eqn:S; [reflexivity|].
    apply andb_true_iff in N as [N1 N2].
    apply negb_true_iff in N1, N2.
    unfold strip at 1. cbn [lstrip]. rewrite N1. unfold rstrip.
    destruct (exists_last (l := c :: u)) as [v [x Hv]]; [discriminate|].
    rewrite Hv in *. rewrite last_last in N2.
    rewrite rev_app_distr. cbn [rev app lstrip]. rewrite N2.
    change (rev (x :: rev v) = v ++ [x]). cbn [rev]. now rewrite rev_involutive. }
  split; [exact C|].
  intros src sl tl w t. unfold translate_text, bind, make_api_call_default.
  destruct (make_api_call env _ _ _ _ w) as [[a|e] w1] eqn:E1; [|discriminate].
  destruct (make_api_call env _ _ _ _ w1) as [[b|e] w2] eqn:E2; [|discriminate].
  destruct (make_api_call env _ _ _ _ w2) as [[v|e] w3] eqn:E3; [|discriminate].
  apply (f_equal fst) in E1, E2. cbn [fst] in E1, E2.
  destruct (contains (lit "Version 1") v).
  - cbn. intros H. injection H as <-. exact (C _ _ _ _ _ _ E1).
  - destruct (contains (lit "Version 2") v); [|discriminate].
    cbn. intros H. injection H as <-. exact (C _ _ _ _ _ _ E2).
Qed.

Lemma returned_text_is_nonempty_and_trimmed_witness :
  let t := lit "Bonjour, le monde" in
  is_empty t = false /\ no_outer_space t = true /\ strip t = t.
Proof.
  apply (proj2 (returned_text_is_nonempty_and_trimmed
                  (mock_env [lit " Bonjour le monde "; lit "  Bonjour, le monde" ++ nl;
                             lit "Version 2"]))
           (lit "Hello world") (lit "English") (lit "French") empty_world).
  reflexivity.
Defined.

(** C10: against a service that is a fixed function of the prompt, the result
    of [translate_text] on given arguments is the same in every run: the same
    returned string or the same exception, whatever the state of the world
    the run starts in. *)
Theorem translate_text_is_deterministic
    (f : str -> HttpResult) (env1 env2 : Env) (src sl tl : str) (w1 w2 : World) :
  (forall h rq, respond env1 h rq = f (prompt (req_json rq))) ->
  (forall h rq, respond env2 h rq = f (prompt (req_json rq))) ->
  fst (translate_text env1 src sl tl w1) = fst (translate_text env2 src sl tl w2).
Proof.
  intros F1 F2.
  assert (D : forall p u1 u2,
             fst (make_api_call_default env1 p u1) = fst (make_api_call_default env2 p u2)).
  { intros p u1 u2. apply make_api_call_same_answer. now rewrite F1, F2. }
  unfold translate_text, bind.
  pose proof (D (initial_prompt src sl tl) w1 w2) as D1.
  destruct (make_api_call_default env1 _ w1) as [r1 u1].
  destruct (make_api_call_default env2 _ w2) as [r2 u2].
  cbn [fst] in D1. subst r2. destruct r1 as [a|e]; [|reflexivity].
  pose proof (D (refine_prompt tl a) u1 u2) as D2.
  destruct (make_api_call_default env1 _ u1) as [r1 v1].
  destruct (make_api_call_default env2 _ u2) as [r2 v2].
  cbn [fst] in D2. subst r2. destruct r1 as [b|e]; [|reflexivity].
  pose proof (D (compare_prompt tl a b) v1 v2) as D3.
  destruct (make_api_call_default env1 _ v1) as [r1 x1].
  destruct (make_api_call_default env2 _ v2) as [r2 x2].
  cbn [fst] in D3. subst r2. destruct r1 as [v|e]; [|reflexivity].
  destruct (contains (lit "Version 1") v); [reflexivity|].
  destruct (contains (lit "Version 2") v); reflexivity.
Qed.

Lemma translate_text_is_deterministic_witness :
  let f := fun p => text_response (if contains (lit "Respond with") p
                                   then lit "Version 1" else lit "Hallo Welt") in
  fst (translate_text (prompt_env f) (lit "Hello world") (lit "English") (lit "German")
                      empty_world)
  = fst (translate_text (prompt_env f) (lit "Hello world") (lit "English") (lit "German")
                        (with_line empty_world (lit "an earlier run"))).
Proof.
  intro f.
  apply (translate_text_is_deterministic f (prompt_env f) (prompt_env f));
    reflexivity.
Defined.

(** C6: [make_api_call] posts the prompt with the white space at its two
    ends removed and everything between kept as it is, and when the answer
    carries a text that is not blank it returns that text trimmed the same
    way. *)
Theorem make_api_call_trims_prompt_and_result
    (env : Env) (p : str) (mt : Z) (T : float) (m : str) (w : World) :
  let rq := mkRequest API_ENDPOINT (HEADERS env) (mkPayload m (strip p) mt T) in
  sent (snd (make_api_call env p mt T m w)) = sent w ++ [rq]
  /\ prompt (req_json rq) = strip p
  /\ (exists l r, p = l ++ strip p ++ r
                  /\ forallb isspace l = true /\ forallb isspace r = true)
  /\ no_outer_space (strip p) = true
  /\ (forall raw,
         http_text (respond env (sent w) rq) = Some raw ->
         is_empty (strip raw) = false ->
         fst (make_api_call env p mt T m w) = Ok (strip raw)
         /\ (exists l r, raw = l ++ strip raw ++ r
                         /\ forallb isspace l = true /\ forallb isspace r = true)
         /\ no_outer_space (strip raw) = true).
Proof.
  intro rq. split; [now rewrite make_api_call_world|].
  split; [reflexivity|].
  split; [apply strip_split|].
  split; [apply strip_no_outer_space|].
  intros raw H E. split.
  - rewrite (make_api_call_text env p mt T m w raw H). now rewrite E.
  - split; [apply strip_split | apply strip_no_outer_space].
Qed.

Lemma make_api_call_trims_prompt_and_result_witness :
  let env := mock_env [[9; 32]%N ++ lit "Bonjour  le monde" ++ nl] in
  let r := make_api_call env (lit "  Translate:  Hello world " ++ nl) 1000
                         DEFAULT_TEMPERATURE DEFAULT_MODEL empty_world in
  map (fun rq => prompt (req_json rq)) (sent (snd r)) = [lit "Translate:  Hello world"]
  /\ fst r = Ok (lit "Bonjour  le monde").
Proof.
  intros env r.
  pose proof (make_api_call_trims_prompt_and_result
                env (lit "  Translate:  Hello world " ++ nl) 1000
                DEFAULT_TEMPERATURE DEFAULT_MODEL empty_world) as [S [_ [_ [_ R]]]].
  split.
  - unfold r. rewrite S. reflexivity.
  - apply (R ([9; 32]%N ++ lit "Bonjour  le monde" ++ nl)); reflexivity.
Defined.

(** ** Malformed bodies *)

(** A body without "choices", and a first choice without "text", both end
    in the client's RuntimeError, like a transport error or an error
    status. *)
Lemma handled_deviations_raise_RuntimeError
    (env : Env) (p : str) (mt : Z) (T : float) (m : str) (w : World) :
  let rq := mkRequest API_ENDPOINT (HEADERS env) (mkPayload m (strip p) mt T) in
  (forall d, dict_lookup d (lit "choices") = None ->
             respond env (sent w) rq = json_answer (PDict d) ->
             fst (make_api_call env p mt T m w) = Raise empty_response_error)
  /\ (forall d c rest, dict_lookup d (lit "choices") = Some (PList (PDict c :: rest)) ->
                       dict_lookup c (lit "text") = None ->
                       respond env (sent w) rq = json_answer (PDict d) ->
                       fst (make_api_call env p mt T m w) = Raise empty_response_error)
  /\ (forall msg, respond env (sent w) rq = TransportError msg ->
                  exists e, fst (make_api_call env p mt T m w) = Raise e
                            /\ exc_class e = RuntimeError)
  /\ (forall resp, respond env (sent w) rq = Response resp ->
                   (400 <= status_code resp < 600)%Z ->
                   exists e, fst (make_api_call env p mt T m w) = Raise e
                             /\ exc_class e = RuntimeError).
Proof.
  intro rq. repeat split.
  - intros d Hd Hr.
    rewrite (make_api_call_text env p mt T m w []); [reflexivity|].
    fold rq. rewrite Hr.
    unfold json_answer, http_text, first_choice_text, response_json.
    cbn [json bindR py_get]. rewrite Hd.
    cbn [py_getitem0 bindR py_get dict_lookup]. reflexivity.
  - intros d c rest Hd Hc Hr.
    rewrite (make_api_call_text env p mt T m w []); [reflexivity|].
    fold rq. rewrite Hr.
    unfold json_answer, http_text, first_choice_text, response_json.
    cbn [json bindR py_get]. rewrite Hd.
    cbn [py_getitem0 bindR py_get]. rewrite Hc. reflexivity.
  - intros msg Hr. run_client. fold rq. rewrite Hr. cbn. eexists. split; reflexivity.
  - intros resp Hr [Hlo Hhi]. run_client. fold rq. rewrite Hr.
    unfold raise_for_status.
    destruct ((400 <=? status_code resp)%Z && (status_code resp <? 500)%Z) eqn:E4.
    + cbn. eexists. split; reflexivity.
    + destruct ((500 <=? status_code resp)%Z && (status_code resp <? 600)%Z) eqn:E5.
      * cbn. eexists. split; reflexivity.
      * exfalso.
        apply andb_false_iff in E4, E5.
        rewrite Z.leb_gt, Z.ltb_ge in E4, E5. lia.
Qed.

(** C3 (the case the code misses): a 200 answer whose "choices" array is
    present but empty makes [make_api_call] raise IndexError, which is not a
    RuntimeError and is not wrapped into one. *)
Theorem empty_choices_array_raises_IndexError :
  let env := service_env (fun _ _ => json_answer (PDict [(lit "choices", PList [])])) in
  exists e,
    fst (make_api_call env (lit "Translate: Hello") 1000 DEFAULT_TEMPERATURE DEFAULT_MODEL
                       empty_world) = Raise e
    /\ e = exc IndexError (lit "list index out of range")
    /\ isinstance e RuntimeError = false.
Proof.
  intro env. eexists. split; [vm_compute; reflexivity|]. split; reflexivity.
Qed.

(** ** The driver *)

Lemma raise_for_status_class (r : HttpResponse) (e : PyExc) :
  raise_for_status r = Raise e -> exc_class e = HTTPError.
Proof.
  unfold raise_for_status.
  destruct (_ && _); [intros H; injection H as <-; reflexivity|].
  destruct (_ && _); [intros H; injection H as <-; reflexivity|discriminate].
Qed.

Lemma response_json_raises (r : HttpResponse) (e : PyExc) :
  response_json r = Raise e -> isinstance e Exception = true.
Proof.
  unfold response_json. destruct (json r) as [v|why|c m X]; [discriminate| |];
    intros H; injection H as <-; [reflexivity | exact X].
Qed.

Ltac case_on_matches H :=
  repeat match type of H with
         | context [match ?x with _ => _ end] =>
             first [is_var x | match x with dict_lookup _ _ => idtac end];
             destruct x; cbn in H
         end.

Lemma response_text_class (j : pyval) (e : PyExc) :
  bindR (first_choice_text j) py_strip = Raise e -> isinstance e Exception = true.
Proof.
  intros H. unfold first_choice_text, py_get, py_getitem0, py_strip, bindR in H.
  case_on_matches H; try discriminate H; injection H as <-; reflexivity.
Qed.

(** Every exception that leaves the client is an [Exception]. *)
Lemma make_api_call_raises (env : Env) (p : str) (mt : Z) (T : float) (m : str)
    (w : World) (e : PyExc) :
  fst (make_api_call env p mt T m w) = Raise e -> isinstance e Exception = true.
Proof.
  run_client.
  destruct (respond env (sent w) _) as [msg|resp|c0 m0 X0].
  { cbn. intros H. injection H as <-. reflexivity. }
  2:{ post_raised ltac:(cbn [fst]; intros H; injection H as <-;
                         first [reflexivity | exact X0]). }
  destruct (raise_for_status resp) as [[]|e0] eqn:E0.
  2:{ apply raise_for_status_class in E0. unfold isinstance. rewrite E0. cbn.
      intros H. injection H as <-. reflexivity. }
  destruct (response_json resp) as [j|e0] eqn:E1.
  2:{ apply response_json_raises in E1.
      destruct (isinstance e0 RequestException); cbn; intros H; injection H as <-;
        [reflexivity | exact E1]. }
  destruct (bindR (first_choice_text j) py_strip) as [t|e0] eqn:E2.
  2:{ apply response_text_class in E2.
      destruct (isinstance e0 RequestException); cbn; intros H; injection H as <-;
        [reflexivity | exact E2]. }
  destruct (is_empty t); cbn; [|discriminate].
  intros H. injection H as <-. reflexivity.
Qed.

(** The orchestrator changes the world by the requests it sends, and by
    nothing else. *)
Lemma translate_text_frame (env : Env) (src sl tl : str) (w : World) :
  let w' := snd (translate_text env src sl tl w) in
  files w' = files w /\ writes w' = writes w /\ stdout w' = stdout w
  /\ exists rqs, sent w' = sent w ++ rqs.
Proof.
  unfold translate_text, bind, make_api_call_default.
  destruct (make_api_call env _ _ _ _ w) as [r1 w1] eqn:E1.
  apply (f_equal snd) in E1. rewrite make_api_call_world in E1. cbn [snd] in E1.
  destruct r1 as [a|e].
  2:{ subst w1. cbn. repeat split. eexists. reflexivity. }
  destruct (make_api_call env _ _ _ _ w1) as [r2 w2] eqn:E2.
  apply (f_equal snd) in E2. rewrite make_api_call_world in E2. cbn [snd] in E2.
  destruct r2 as [b|e].
  2:{ subst w2 w1. cbn. repeat split. rewrite <- app_assoc. eexists. reflexivity. }
  destruct (make_api_call env _ _ _ _ w2) as [r3 w3] eqn:E3.
  apply (f_equal snd) in E3. rewrite make_api_call_world in E3. cbn [snd] in E3.
  assert (F : files w3 = files w /\ writes w3 = writes w /\ stdout w3 = stdout w
              /\ exists rqs, sent w3 = sent w ++ rqs).
  { subst w3 w2 w1. cbn. repeat split. rewrite <- !app_assoc. eexists. reflexivity. }
  destruct r3 as [v|e]; [|exact F].
  destruct (contains (lit "Version 1") v); [exact F|].
  destruct (contains (lit "Version 2") v); exact F.
Qed.

Lemma translate_text_raises (env : Env) (src sl tl : str) (w : World) (e : PyExc) :
  fst (translate_text env src sl tl w) = Raise e -> isinstance e Exception = true.
Proof.
  unfold translate_text, bind, make_api_call_default.
  destruct (make_api_call env _ _ _ _ w) as [[a|e1] w1] eqn:E1.
  2:{ cbn. intros H. injection H as <-.
      exact (make_api_call_raises env _ _ _ _ w _ (f_equal fst E1)). }
  destruct (make_api_call env _ _ _ _ w1) as [[b|e2] w2] eqn:E2.
  2:{ cbn. intros H. injection H as <-.
      exact (make_api_call_raises env _ _ _ _ w1 _ (f_equal fst E2)). }
  destruct (make_api_call env _ _ _ _ w2) as [[v|e3] w3] eqn:E3.
  2:{ cbn. intros H. injection H as <-.
      exact (make_api_call_raises env _ _ _ _ w2 _ (f_equal fst E3)). }
  destruct (contains (lit "Version 1") v); [discriminate|].
  destruct (contains (lit "Version 2") v); [discriminate|].
  cbn. intros H. injection H as <-. reflexivity.
Qed.

Lemma read_text_world (env : Env) (path : str) (w : World) :
  snd (read_text env path w) = w.
Proof.
  unfold read_text. destruct (files w path) as [c| |[] wr [s|why]|er ew]; reflexivity.
Qed.

Lemma read_text_raises (env : Env) (path : str) (w : World) (e : PyExc) :
  fst (read_text env path w) = Raise e -> isinstance e Exception = true.
Proof.
  unfold read_text. destruct (files w path) as [c| |[] wr [s|why]|er ew]; cbn;
    intros H; try discriminate H; injection H as <-; try reflexivity.
  destruct er; reflexivity.
Qed.

(** How [main] ends when the body of its [try] raises. *)
Lemma run_main_raise (env : Env) (args : Args) (w w' : World) (e : PyExc) :
  main_body env args w = (Raise e, w') ->
  isinstance e Exception = true ->
  run_main env args w = (1%Z, after_print w' (diagnostic e)).
Proof.
  intros H X. unfold run_main, main, try_excepts. rewrite H. cbn [dispatch].
  unfold diagnostic, after_print, bind, print.
  destruct (isinstance e FileNotFoundError);
    [destruct (utf8_encodable _); reflexivity|].
  destruct (isinstance e RuntimeError);
    [destruct (utf8_encodable _); reflexivity|].
  destruct (isinstance e ValueError);
    [destruct (utf8_encodable _); reflexivity|].
  rewrite X. destruct (utf8_encodable _); reflexivity.
Qed.

Lemma run_main_ok (env : Env) (args : Args) (w w' : World) :
  main_body env args w = (Ok tt, w') -> run_main env args w = (0%Z, w').
Proof.
  intros H. unfold run_main, main, try_excepts. now rewrite H.
Qed.

Lemma write_text_raises (env : Env) (path text : str) (w : World) (e : PyExc) :
  fst (write_text env path text w) = Raise e -> isinstance e Exception = true.
Proof.
  unfold write_text, bind, open_w, file_write.
  destruct (files w path) as [[]| |rd [] d|er ew]; cbn;
    try (intros H; injection H as <-; first [reflexivity | destruct ew; reflexivity]);
    destruct (utf8_encodable text); cbn; intros H; try discriminate H;
    injection H as <-; reflexivity.
Qed.

(** A successful write leaves the text in the file and one more entry in the
    write log. *)
Lemma write_text_ok (env : Env) (path text : str) (w w' : World) :
  write_text env path text w = (Ok tt, w') ->
  exists rd wr,
    sent w' = sent w /\ stdout w' = stdout w
    /\ writes w' = writes w ++ [(path, text)]
    /\ forall q, files w' q = set_file (files w) path (Regular rd wr (Text text)) q.
Proof.
  unfold write_text, bind, open_w, file_write.
  destruct (files w path) as [[]| |rd [] d|er ew]; cbn; try discriminate;
    destruct (utf8_encodable text); cbn; try discriminate;
    intros H; injection H as <-; cbn;
    [exists true, true | exists rd, true];
    repeat split; intros q; unfold set_file; destruct (str_eqb q path); reflexivity.
Qed.

(** The three stages of the body of [main], one after the other. *)
Lemma main_body_cases (env : Env) (args : Args) (w : World) :
  match fst (read_text env (infile args) w) with
  | Raise e => main_body env args w = (Raise e, w)
  | Ok s =>
      let tr := translate_text env s (source_language args) (target_language args) w in
      match fst tr with
      | Raise e => main_body env args w = (Raise e, snd tr)
      | Ok t => main_body env args w = write_text env (outfile args) t (snd tr)
      end
  end.
Proof.
  unfold main_body, bind.
  pose proof (read_text_world env (infile args) w) as RW.
  destruct (read_text env (infile args) w) as [[s|e] w0]; cbn [fst snd] in *; subst w0;
    [|reflexivity].
  destruct (translate_text env s _ _ w) as [[t|e] w1]; reflexivity.
Qed.

(** C8: the output file is written last.  When reading the input fails, or
    when the orchestrator fails, the file system and the write log are as
    they were; and when the driver ends with status 0, the orchestrator has
    returned a text, that text has been written to the output path once, and
    the output file holds it. *)
Theorem output_is_written_last_and_once (env : Env) (args : Args) (w : World) :
  let r := run_main env args w in
  (forall e, fst (read_text env (infile args) w) = Raise e ->
             fst r = 1%Z /\ files (snd r) = files w /\ writes (snd r) = writes w)
  /\ (forall s e,
         fst (read_text env (infile args) w) = Ok s ->
         fst (translate_text env s (source_language args) (target_language args) w)
         = Raise e ->
         fst r = 1%Z /\ files (snd r) = files w /\ writes (snd r) = writes w)
  /\ (fst r = 0%Z ->
      exists s t rd wr,
        fst (read_text env (infile args) w) = Ok s
        /\ fst (translate_text env s (source_language args) (target_language args) w)
           = Ok t
        /\ writes (snd r) = writes w ++ [(outfile args, t)]
        /\ files (snd r) (outfile args) = Regular rd wr (Text t)
        /\ forall q, str_eqb q (outfile args) = false -> files (snd r) q = files w q).
Proof.
  intro r. subst r.
  pose proof (main_body_cases env args w) as B.
  destruct (fst (read_text env (infile args) w)) as [s|e0] eqn:R.
  - cbn zeta in B.
    pose proof (translate_text_frame env s (source_language args) (target_language args) w)
      as [Ff [Fw _]]. cbn zeta in Ff, Fw.
    destruct (fst (translate_text env s _ _ w)) as [t|e1] eqn:Tr.
    + split; [intros e H; discriminate H|].
      split; [intros s' e' H; injection H as <-; rewrite Tr; discriminate|].
      destruct (write_text env (outfile args) t _) as [[[]|e2] w2] eqn:W.
      * rewrite (run_main_ok env args w w2 B). cbn [fst snd]. intros _.
        apply write_text_ok in W as [rd [wr [_ [_ [Hw Hf]]]]].
        exists s, t, rd, wr. split; [reflexivity|]. split; [exact Tr|].
        split; [now rewrite Hw, Fw|]. split.
        -- rewrite Hf. unfold set_file. now rewrite str_eqb_refl.
        -- intros q Hq. rewrite Hf. unfold set_file. now rewrite Hq, Ff.
      * rewrite (run_main_raise env args w w2 e2 B).
        -- cbn [fst]. discriminate.
        -- apply (write_text_raises env (outfile args) t
                    (snd (translate_text env s (source_language args)
                                         (target_language args) w))).
           now rewrite W.
    + rewrite (run_main_raise env args w _ e1 B (translate_text_raises _ _ _ _ _ _ Tr)).
      cbn [fst snd]. rewrite after_print_files, after_print_writes.
      split; [intros e H; discriminate H|]. split; [|discriminate].
      intros s' e' _ _. now rewrite Ff, Fw.
  - rewrite (run_main_raise env args w w e0 B (read_text_raises _ _ _ _ R)).
    cbn [fst snd]. rewrite after_print_files, after_print_writes.
    split; [now intros|]. split; [intros s' e' H; discriminate H | discriminate].
Qed.

Lemma output_is_written_last_and_once_witness :
  let env := mock_env [lit "Bonjour le monde"; lit "Bonjour le monde"; lit "Version 2"] in
  let args := mkArgs (lit "in.txt") (lit "out.txt") (lit "English") (lit "French") in
  let w := mkWorld [] (set_file (fun _ => Missing true) (lit "in.txt")
                                (Regular true false (Text (lit "Hello world")))) [] [] in
  exists s t rd wr,
    fst (read_text env (infile args) w) = Ok s
    /\ fst (translate_text env s (source_language args) (target_language args) w) = Ok t
    /\ writes (snd (run_main env args w)) = writes w ++ [(outfile args, t)]
    /\ files (snd (run_main env args w)) (outfile args) = Regular rd wr (Text t)
    /\ forall q, str_eqb q (outfile args) = false ->
                 files (snd (run_main env args w)) q = files w q.
Proof.
  intros env args w.
  apply (proj2 (proj2 (output_is_written_last_and_once env args w))).
  vm_compute. reflexivity.
Defined.

(** C9 as stated fails: an input path that is a directory cannot be read,
    and the driver reports it with the generic diagnostic, not with the
    file-not-found one. *)
Lemma unreadable_input_is_not_always_file_not_found :
  ~ (forall (env : Env) (args : Args) (w : World),
        opens_for_reading (files w (infile args)) = false ->
        fst (run_main env args w) <> 0%Z
        /\ sent (snd (run_main env args w)) = sent w
        /\ exists m, stdout (snd (run_main env args w))
                     = stdout w ++ [lit "Error: File not found - " ++ m]).
Proof.
  intros H.
  destruct (H (mock_env [])
              (mkArgs (lit "texts") (lit "out.txt") (lit "English") (lit "French"))
              (mkWorld [] (set_file (fun _ => Missing true) (lit "texts") Directory) [] [])
              eq_refl) as [_ [_ [m Hm]]].
  vm_compute in Hm. discriminate Hm.
Qed.

(** C9 (amended): an input path that [open] cannot open for reading stops
    the driver before any request: it ends with status 1 and changes nothing
    but its output.  The text it prints is the file-not-found diagnostic,
    which no other handler can print, exactly when [open] reports "no such
    file or directory" (no entry of that name); every other failure of
    [open] (a directory, a file without read permission, a path under a
    regular file, an over-long name) gets the generic diagnostic. *)
Theorem missing_input_stops_before_any_request (env : Env) (args : Args) (w : World) :
  (forall c, files w (infile args) = Missing c ->
             run_main env args w
             = (1%Z, with_line w (lit "Error: File not found - "
                                   ++ os_error_text env ENOENT (infile args))))
  /\ (files w (infile args) = Directory ->
      run_main env args w
      = (1%Z, with_line w (lit "Unexpected error: "
                            ++ os_error_text env EISDIR (infile args))))
  /\ (forall wr d, files w (infile args) = Regular false wr d ->
                   run_main env args w
                   = (1%Z, with_line w (lit "Unexpected error: "
                                         ++ os_error_text env EACCES (infile args))))
  /\ (forall e e', files w (infile args) = Blocked e e' ->
                   run_main env args w
                   = (1%Z, with_line w (open_failure_prefix e
                                         ++ os_error_text env e (infile args))))
  /\ (opens_for_reading (files w (infile args)) = false ->
      exists e,
        fst (read_text env (infile args) w) = Raise (os_exception env e (infile args))
        /\ run_main env args w
           = (1%Z, with_line w (open_failure_prefix e
                                 ++ os_error_text env e (infile args))))
  /\ (forall m m',
         lit "Error: File not found - " ++ m <> lit "Error during translation: " ++ m'
         /\ lit "Error: File not found - " ++ m <> lit "Translation error: " ++ m'
         /\ lit "Error: File not found - " ++ m <> lit "Unexpected error: " ++ m').
Proof.
  pose proof (main_body_cases env args w) as B.
  assert (P : forall e,
             fst (read_text env (infile args) w) = Raise (os_exception env e (infile args)) ->
             run_main env args w
             = (1%Z, with_line w (open_failure_prefix e
                                   ++ os_error_text env e (infile args)))).
  { intros e R. rewrite R in B.
    rewrite (run_main_raise env args w w _ B); [|now destruct e].
    replace (diagnostic (os_exception env e (infile args)))
      with (open_failure_prefix e ++ os_error_text env e (infile args))
      by (now destruct e).
    rewrite after_print_encodable; [reflexivity|].
    destruct e; cbn [open_failure_prefix];
      rewrite prefixed_encodable; apply os_error_text_encodable. }
  split; [|split; [|split; [|split; [|split]]]].
  - intros c Hc. apply (P ENOENT). unfold read_text. now rewrite Hc.
  - intros Hd. apply (P EISDIR). unfold read_text. now rewrite Hd.
  - intros wr d Hr. apply (P EACCES). unfold read_text. now rewrite Hr.
  - intros e e' Hb. apply (P e). unfold read_text. now rewrite Hb.
  - intros Hn.
    assert (R : exists e, fst (read_text env (infile args) w)
                          = Raise (os_exception env e (infile args))).
    { unfold read_text.
      destruct (files w (infile args)) as [c| |[] wr d|e e']; try discriminate Hn;
        eexists; reflexivity. }
    destruct R as [e R]. exists e. split; [exact R | now apply P].
  - intros m m'. repeat split; cbn; discriminate.
Qed.

Lemma missing_input_stops_before_any_request_witness :
  run_main (mock_env [lit "Bonjour"; lit "Bonjour"; lit "Version 1"])
           (mkArgs (lit "nowhere.txt") (lit "out.txt") (lit "English") (lit "French"))
           empty_world
  = (1%Z, with_line empty_world
            (lit "Error: File not found - [Errno 2] No such file or directory: 'nowhere.txt'")).
Proof.
  apply (proj1 (missing_input_stops_before_any_request
                  (mock_env [lit "Bonjour"; lit "Bonjour"; lit "Version 1"])
                  (mkArgs (lit "nowhere.txt") (lit "out.txt") (lit "English") (lit "French"))
                  empty_world) true).
  reflexivity.
Defined.

(** * Further properties *)

(** ** Trimming a framed text *)

Lemma lstrip_spaces (l s : str) :
  forallb isspace l = true -> lstrip (l ++ s) = lstrip s.
Proof.
  induction l as [|c l IH]; [reflexivity|].
  cbn [forallb app lstrip]. intros H. apply andb_true_iff in H as [-> Hl]. now apply IH.
Qed.

Lemma lstrip_head_visible (s : str) : head_visible s = true -> lstrip s = s.
Proof.
  destruct s as [|c s]; [discriminate|]. cbn. intros H.
  apply negb_true_iff in H. now rewrite H.
Qed.

Lemma head_visible_app (x y : str) : head_visible x = true -> head_visible (x ++ y) = true.
Proof. destruct x; [discriminate | trivial]. Qed.

Lemma last_visible_app (x y : str) : last_visible y = true -> last_visible (x ++ y) = true.
Proof. unfold last_visible. rewrite rev_app_distr. apply head_visible_app. Qed.

(** White space around a text that starts and ends with visible characters
    is all that [strip] removes. *)
Lemma strip_framed (l s r : str) :
  forallb isspace l = true -> forallb isspace r = true ->
  head_visible s = true -> last_visible s = true ->
  strip (l ++ s ++ r) = s.
Proof.
  intros Hl Hr Hh Ht. unfold strip, rstrip.
  rewrite (lstrip_spaces l _ Hl).
  rewrite (lstrip_head_visible (s ++ r) (head_visible_app s r Hh)).
  rewrite rev_app_distr, (lstrip_spaces (rev r) _ (forallb_rev _ _ Hr)).
  rewrite (lstrip_head_visible _ Ht). apply rev_involutive.
Qed.

Lemma trimmed_ends_visible (t : str) :
  is_empty t = false -> no_outer_space t = true ->
  head_visible t = true /\ last_visible t = true.
Proof.
  destruct t as [|c u]; [discriminate|]. intros _ H.
  unfold no_outer_space in H. apply andb_true_iff in H as [H1 H2].
  split; [exact H1|].
  unfold last_visible.
  destruct (exists_last (l := c :: u)) as [v [x Hv]]; [discriminate|].
  rewrite Hv in *. rewrite last_last in H2. rewrite rev_app_distr. exact H2.
Qed.

(** X5: what goes over the wire for the three steps is the template without
    its opening and closing newline, with the inserted texts kept character
    for character: always so for the initial prompt, and for the other two
    whenever the last inserted candidate is a trimmed, non-empty text, as every
    result of [make_api_call] is. *)
Theorem transmitted_prompts_keep_inserted_text (env : Env) (src sl tl a b : str) :
  prompt (req_json (step1_request env src sl tl)) = initial_text src sl tl
  /\ (is_empty a = false -> no_outer_space a = true ->
      prompt (req_json (step2_request env tl a)) = refine_text tl a)
  /\ (is_empty b = false -> no_outer_space b = true ->
      prompt (req_json (step3_request env tl a b)) = compare_text tl a b).
Proof.
  unfold step1_request, step2_request, step3_request, request_of. cbn [req_json prompt].
  split; [|split].
  - replace (initial_prompt src sl tl) with (nl ++ initial_text src sl tl ++ nl)
      by (unfold initial_prompt, initial_text; now rewrite <- !app_assoc).
    apply strip_framed; try reflexivity.
    unfold initial_text. repeat apply last_visible_app. reflexivity.
  - intros Ea Na. destruct (trimmed_ends_visible a Ea Na) as [_ La].
    replace (refine_prompt tl a) with (nl ++ refine_text tl a ++ nl)
      by (unfold refine_prompt, refine_text; now rewrite <- !app_assoc).
    apply strip_framed; try reflexivity.
    unfold refine_text. repeat apply last_visible_app. exact La.
  - intros Eb Nb. destruct (trimmed_ends_visible b Eb Nb) as [_ Lb].
    replace (compare_prompt tl a b) with (nl ++ compare_text tl a b ++ nl)
      by (unfold compare_prompt, compare_text; now rewrite <- !app_assoc).
    apply strip_framed; try reflexivity.
    unfold compare_text. repeat apply last_visible_app. exact Lb.
Qed.

Lemma transmitted_prompts_keep_inserted_text_witness :
  prompt (req_json (step2_request (mock_env []) (lit "French") (lit "Bonjour  le monde")))
  = refine_text (lit "French") (lit "Bonjour  le monde").
Proof.
  apply (proj1 (proj2 (transmitted_prompts_keep_inserted_text
                         (mock_env []) [] [] (lit "French") (lit "Bonjour  le monde") [])));
    reflexivity.
Defined.

(** ** Headers *)



(** ** More on the completion client *)

Lemma raise_for_status_ok (r : HttpResponse) :
  raise_for_status r = Ok tt <-> ~ (400 <= status_code r < 600)%Z.
Proof.
  unfold raise_for_status.
  destruct ((400 <=? status_code r)%Z && (status_code r <? 500)%Z) eqn:E4.
  - apply andb_true_iff in E4 as [A B]. apply Z.leb_le in A. apply Z.ltb_lt in B.
    split; [discriminate | lia].
  - destruct ((500 <=? status_code r)%Z && (status_code r <? 600)%Z) eqn:E5.
    + apply andb_true_iff in E5 as [A B]. apply Z.leb_le in A. apply Z.ltb_lt in B.
      split; [discriminate | lia].
    + apply andb_false_iff in E4, E5. rewrite Z.leb_gt, Z.ltb_ge in E4, E5.
      split; [lia | reflexivity].
Qed.

(** X2: [make_api_call] returns a value exactly when the service answers
    with a status outside 400-599, a body that decodes, and a first choice
    whose text is a string that is not blank; the value is that text,
    trimmed.  A status below 400 or from 600 up is not a failure. *)
Theorem make_api_call_succeeds_iff
    (env : Env) (p : str) (mt : Z) (T : float) (m : str) (w : World) (t : str) :
  fst (make_api_call env p mt T m w) = Ok t
  <-> exists resp j raw,
        respond env (sent w)
          (mkRequest API_ENDPOINT (HEADERS env) (mkPayload m (strip p) mt T)) = Response resp
        /\ ~ (400 <= status_code resp < 600)%Z
        /\ json resp = Decoded j
        /\ first_choice_text j = Ok (PStr raw)
        /\ t = strip raw /\ is_empty t = false.
Proof.
  split.
  - intros H. apply make_api_call_ok in H as [raw [H [-> E]]].
    unfold http_text in H.
    destruct (respond env (sent w) _) as [msg|resp|c0 m0 X0]; [discriminate| |discriminate].
    destruct (raise_for_status resp) as [[]|e] eqn:S; [|discriminate].
    unfold response_json in H.
    destruct (json resp) as [j|why|c1 m1 X1] eqn:J; [|discriminate|discriminate].
    cbn [bindR] in H.
    destruct (first_choice_text j) as [[]|e] eqn:F; try discriminate.
    injection H as ->.
    exists resp, j, raw. split; [reflexivity|].
    split; [now apply raise_for_status_ok|]. now repeat split.
  - intros [resp [j [raw [R [S [J [F [-> E]]]]]]]].
    rewrite (make_api_call_text env p mt T m w raw); [now rewrite E|].
    rewrite R. unfold http_text, response_json.
    apply raise_for_status_ok in S. rewrite S, J. cbn [bindR]. now rewrite F.
Qed.

(** X3: a failure of the transport, a 4xx or 5xx status, and a body that is
    not JSON all leave [make_api_call] as a RuntimeError whose text is
    "API call failed: " followed by the text of the original exception, which
    is kept as the cause. *)
Theorem make_api_call_wraps_request_failures
    (env : Env) (p : str) (mt : Z) (T : float) (m : str) (w : World) :
  let rq := mkRequest API_ENDPOINT (HEADERS env) (mkPayload m (strip p) mt T) in
  let wrapped e := Raise (mkExc RuntimeError (lit "API call failed: " ++ exc_str e) (Some e)) in
  (forall msg,
      respond env (sent w) rq = TransportError msg ->
      fst (make_api_call env p mt T m w) = wrapped (exc RequestException msg))
  /\ (forall resp,
         respond env (sent w) rq = Response resp ->
         (400 <= status_code resp < 600)%Z ->
         fst (make_api_call env p mt T m w)
         = wrapped (exc HTTPError
                      (str_of_int (status_code resp)
                       ++ (if (status_code resp <? 500)%Z then lit " Client Error: "
                           else lit " Server Error: ")
                       ++ reason resp ++ lit " for url: " ++ url resp)))
  /\ (forall resp why,
         respond env (sent w) rq = Response resp ->
         ~ (400 <= status_code resp < 600)%Z ->
         json resp = NotJson why ->
         fst (make_api_call env p mt T m w) = wrapped (exc JSONDecodeError why)).
Proof.
  intros rq wrapped. subst wrapped. split; [|split].
  - intros msg R. run_client. fold rq. now rewrite R.
  - intros resp R [Lo Hi]. run_client. fold rq. rewrite R. unfold raise_for_status.
    destruct (Z.ltb_spec (status_code resp) 500) as [L5|G5].
    + replace (400 <=? status_code resp)%Z with true by (symmetry; now apply Z.leb_le).
      reflexivity.
    + replace (400 <=? status_code resp)%Z with true by (symmetry; now apply Z.leb_le).
      replace (500 <=? status_code resp)%Z with true by (symmetry; now apply Z.leb_le).
      replace (status_code resp <? 600)%Z with true by (symmetry; now apply Z.ltb_lt).
      reflexivity.
  - intros resp why R S J. run_client. fold rq. rewrite R.
    apply raise_for_status_ok in S. rewrite S. unfold response_json. now rewrite J.
Qed.

Lemma make_api_call_wraps_request_failures_witness :
  let env := service_env
               (fun _ _ => Response (mkResponse 503 (lit "Service Unavailable")
                                                API_ENDPOINT (NotJson []))) in
  exists e,
    fst (make_api_call env (lit "Translate: Hello") 1000 DEFAULT_TEMPERATURE DEFAULT_MODEL
                       empty_world) = Raise e
    /\ exc_str e
       = lit "API call failed: 503 Server Error: Service Unavailable for url: http://localhost:5000/v1/completions".
Proof.
  intro env. eexists. split.
  - apply (proj1 (proj2 (make_api_call_wraps_request_failures
                           env (lit "Translate: Hello") 1000 DEFAULT_TEMPERATURE
                           DEFAULT_MODEL empty_world))
             (mkResponse 503 (lit "Service Unavailable") API_ENDPOINT (NotJson [])));
      [reflexivity | cbn; lia].
  - reflexivity.
Defined.

Lemma response_text_classes (j : pyval) (e : PyExc) :
  bindR (first_choice_text j) py_strip = Raise e ->
  In (exc_class e) [IndexError; KeyError; TypeError; AttributeError].
Proof.
  intros H. unfold first_choice_text, py_get, py_getitem0, py_strip, bindR in H.
  case_on_matches H; try discriminate H; injection H as <-; cbn; tauto.
Qed.

(** An exception that leaves the client is never one of the requests
    library. *)
Lemma make_api_call_not_request_exception (env : Env) (p : str) (mt : Z) (T : float)
    (m : str) (w : World) (e : PyExc) :
  fst (make_api_call env p mt T m w) = Raise e -> isinstance e RequestException = false.
Proof.
  assert (K : forall (r : Result str) (u : World),
             fst (match r with
                  | Ok a => (Ok a, u)
                  | Raise x =>
                      if isinstance x RequestException
                      then (Raise (mkExc RuntimeError (lit "API call failed: " ++ exc_str x)
                                         (Some x)), u)
                      else (Raise x, u)
                  end) = Raise e ->
             isinstance e RequestException = false).
  { intros [a|x] u; [discriminate|].
    destruct (isinstance x RequestException) eqn:I; cbn [fst]; intros H; injection H as <-;
      [reflexivity | exact I]. }
  run_client.
  destruct (respond env (sent w) _) as [msg|resp|c0 m0 X0];
    [apply (K (Raise _)) | | apply (K (Raise _))].
  destruct (raise_for_status resp) as [[]|e0]; [|apply (K (Raise _))].
  destruct (response_json resp) as [j|e0]; [|apply (K (Raise _))].
  destruct (bindR (first_choice_text j) py_strip) as [t|e0]; [|apply (K (Raise _))].
  destruct (is_empty t); [apply (K (Raise _)) | apply (K (Ok _))].
Qed.

(** ** More on the orchestrator *)

(** One run of the orchestrator, call by call. *)
Lemma translate_text_trace (env : Env) (src sl tl : str) (w : World) :
  translate_text env src sl tl w
  = let w1 := with_request w (step1_request env src sl tl) in
    match fst (make_api_call_default env (initial_prompt src sl tl) w) with
    | Raise e => (Raise e, w1)
    | Ok a =>
        let w2 := with_request w1 (step2_request env tl a) in
        match fst (make_api_call_default env (refine_prompt tl a) w1) with
        | Raise e => (Raise e, w2)
        | Ok b =>
            let w3 := with_request w2 (step3_request env tl a b) in
            match fst (make_api_call_default env (compare_prompt tl a b) w2) with
            | Raise e => (Raise e, w3)
            | Ok v =>
                (if contains (lit "Version 1") v then Ok a
                 else if contains (lit "Version 2") v then Ok b
                 else Raise (exc ValueError
                               (lit "Unexpected output from API during comparison: " ++ v)),
                 w3)
            end
        end
    end.
Proof.
  assert (P : forall p u r u',
             make_api_call_default env p u = (r, u') ->
             u' = with_request u (request_of env p)).
  { intros p u r u' H. apply (f_equal snd) in H. cbn [snd] in H. rewrite <- H.
    apply make_api_call_world. }
  unfold translate_text, bind, step1_request, step2_request, step3_request. cbn zeta.
  destruct (make_api_call_default env (initial_prompt src sl tl) w) as [r1 u1] eqn:E1.
  apply P in E1. subst u1. cbn [fst]. destruct r1 as [a|e]; [|reflexivity].
  destruct (make_api_call_default env (refine_prompt tl a) _) as [r2 u2] eqn:E2.
  apply P in E2. subst u2. cbn [fst]. destruct r2 as [b|e]; [|reflexivity].
  destruct (make_api_call_default env (compare_prompt tl a b) _) as [r3 u3] eqn:E3.
  apply P in E3. subst u3. cbn [fst]. destruct r3 as [v|e]; [|reflexivity].
  destruct (contains (lit "Version 1") v); [reflexivity|].
  destruct (contains (lit "Version 2") v); reflexivity.
Qed.

(** X4: no exception of the requests library leaves [make_api_call] or
    [translate_text]: every instance of RequestException is raised again as
    a RuntimeError.  Once the body of an accepted response has decoded, the
    only exceptions [make_api_call] raises are that RuntimeError for a blank
    text and, for a body of the wrong shape, IndexError, KeyError, TypeError
    or AttributeError. *)
Theorem no_requests_exception_escapes (env : Env) :
  (forall p mt T m w e,
      fst (make_api_call env p mt T m w) = Raise e ->
      isinstance e RequestException = false)
  /\ (forall src sl tl w e,
         fst (translate_text env src sl tl w) = Raise e ->
         isinstance e RequestException = false)
  /\ (forall p mt T m w resp j e,
         respond env (sent w)
           (mkRequest API_ENDPOINT (HEADERS env) (mkPayload m (strip p) mt T)) = Response resp ->
         ~ (400 <= status_code resp < 600)%Z ->
         json resp = Decoded j ->
         fst (make_api_call env p mt T m w) = Raise e ->
         In (exc_class e) [RuntimeError; IndexError; KeyError; TypeError; AttributeError]).
Proof.
  split; [exact (make_api_call_not_request_exception env)|]. split.
  - intros src sl tl w e. rewrite translate_text_trace. cbn zeta.
    unfold make_api_call_default.
    destruct (fst (make_api_call env (initial_prompt src sl tl) _ _ _ w)) as [a|e1] eqn:E1.
    2:{ cbn [fst]. intros H. injection H as <-.
        exact (make_api_call_not_request_exception _ _ _ _ _ _ _ E1). }
    destruct (fst (make_api_call env (refine_prompt tl a) _ _ _ _)) as [b|e2] eqn:E2.
    2:{ cbn [fst]. intros H. injection H as <-.
        exact (make_api_call_not_request_exception _ _ _ _ _ _ _ E2). }
    destruct (fst (make_api_call env (compare_prompt tl a b) _ _ _ _)) as [v|e3] eqn:E3.
    2:{ cbn [fst]. intros H. injection H as <-.
        exact (make_api_call_not_request_exception _ _ _ _ _ _ _ E3). }
    cbn [fst].
    destruct (contains (lit "Version 1") v); [discriminate|].
    destruct (contains (lit "Version 2") v); [discriminate|].
    intros H. injection H as <-. reflexivity.
  - intros p mt T m w resp j e R S J. run_client. rewrite R.
    apply raise_for_status_ok in S. rewrite S. unfold response_json. rewrite J.
    destruct (bindR (first_choice_text j) py_strip) as [t|e0] eqn:E2.
    + destruct (is_empty t); cbn; [|discriminate].
      intros H. injection H as <-. now left.
    + apply response_text_classes in E2.
      assert (I : isinstance e0 RequestException = false).
      { unfold isinstance.
        destruct E2 as [<-|[<-|[<-|[<-|[]]]]]; reflexivity. }
      rewrite I. cbn. intros H. injection H as <-. now right.
Qed.

Lemma no_requests_exception_escapes_witness :
  let env := service_env (fun _ _ => json_answer (PDict [(lit "choices", PDict [])])) in
  In KeyError [RuntimeError; IndexError; KeyError; TypeError; AttributeError].
Proof.
  intro env.
  apply (proj2 (proj2 (no_requests_exception_escapes env))
           (lit "Translate: Hello") 1000%Z DEFAULT_TEMPERATURE DEFAULT_MODEL empty_world
           (mkResponse 200 (lit "OK") API_ENDPOINT
                       (Decoded (PDict [(lit "choices", PDict [])])))
           (PDict [(lit "choices", PDict [])]) (exc KeyError (lit "0")));
    [reflexivity | cbn; lia | reflexivity | reflexivity].
Defined.

(** X6: every run of [translate_text] sends between one and three requests,
    the first of them the initial-translation request whatever the source
    text is; all of them go to the configured endpoint with the module's
    headers, the default model, 1000 tokens and temperature 0.7; and a run
    that returns a value has sent exactly three. *)
Theorem translate_text_requests (env : Env) (src sl tl : str) (w : World) :
  exists rqs,
    sent (snd (translate_text env src sl tl w)) = sent w ++ rqs
    /\ hd_error rqs = Some (step1_request env src sl tl)
    /\ (1 <= List.length rqs <= 3)%nat
    /\ Forall (default_shaped env) rqs
    /\ (forall t, fst (translate_text env src sl tl w) = Ok t -> List.length rqs = 3%nat).
Proof.
  assert (S : forall p, default_shaped env (request_of env p)) by (intros p; now repeat split).
  rewrite translate_text_trace. cbn zeta.
  destruct (fst (make_api_call_default env (initial_prompt src sl tl) w)) as [a|e1].
  2:{ exists [step1_request env src sl tl]. cbn.
      repeat split; try lia; try discriminate. repeat constructor; apply S. }
  destruct (fst (make_api_call_default env (refine_prompt tl a) _)) as [b|e2].
  2:{ exists [step1_request env src sl tl; step2_request env tl a]. cbn.
      split; [now rewrite <- app_assoc|].
      repeat split; try lia; try discriminate. repeat constructor; apply S. }
  exists [step1_request env src sl tl; step2_request env tl a; step3_request env tl a b].
  assert (F : Forall (default_shaped env)
                     [step1_request env src sl tl; step2_request env tl a;
                      step3_request env tl a b]) by (repeat constructor; apply S).
  destruct (fst (make_api_call_default env (compare_prompt tl a b) _)) as [v|e3];
    cbn [fst snd with_request sent List.length hd_error];
    (split; [now rewrite <- !app_assoc|]); repeat split; try lia; try exact F;
    try discriminate.
Qed.

(** X7: [translate_text] returns a value only when the service has answered
    all three steps with text that is not blank and the verdict names a
    version; the value is then the candidate the verdict selects, with
    "Version 1" tested first. *)
Theorem translate_text_ok_inv (env : Env) (src sl tl : str) (w : World) (t : str) :
  fst (translate_text env src sl tl w) = Ok t ->
  exists t1 t2 t3,
    step3_text env src sl tl w t1 t2 t3
    /\ is_empty (strip t3) = false
    /\ (contains (lit "Version 1") t3 = true /\ t = strip t1
        \/ contains (lit "Version 1") t3 = false
           /\ contains (lit "Version 2") t3 = true /\ t = strip t2).
Proof.
  rewrite translate_text_trace. cbn zeta. unfold make_api_call_default.
  destruct (fst (make_api_call env (initial_prompt src sl tl) _ _ _ w)) as [a|e1] eqn:E1;
    [|discriminate].
  apply make_api_call_ok in E1 as [t1 [H1 [-> N1]]].
  destruct (fst (make_api_call env (refine_prompt tl (strip t1)) _ _ _ _)) as [b|e2] eqn:E2;
    [|discriminate].
  apply make_api_call_ok in E2 as [t2 [H2 [-> N2]]].
  destruct (fst (make_api_call env (compare_prompt tl (strip t1) (strip t2)) _ _ _ _))
    as [v|e3] eqn:E3; [|discriminate].
  apply make_api_call_ok in E3 as [t3 [H3 [-> N3]]].
  rewrite sent_two_requests in H3.
  rewrite contains_Version_1_strip, contains_Version_2_strip. cbn [fst].
  intros R. exists t1, t2, t3.
  split; [repeat split; assumption|]. split; [exact N3|].
  destruct (contains (lit "Version 1") t3).
  - left. injection R as <-. now split.
  - right. destruct (contains (lit "Version 2") t3); [|discriminate].
    injection R as <-. now repeat split.
Qed.

Lemma translate_text_ok_inv_witness :
  let env := mock_env [lit "Hola mundo"; lit "Hola, mundo"; lit "Version 2"] in
  exists t1 t2 t3,
    step3_text env (lit "Hello world") (lit "English") (lit "Spanish") empty_world t1 t2 t3
    /\ is_empty (strip t3) = false
    /\ (contains (lit "Version 1") t3 = true /\ lit "Hola, mundo" = strip t1
        \/ contains (lit "Version 1") t3 = false
           /\ contains (lit "Version 2") t3 = true /\ lit "Hola, mundo" = strip t2).
Proof.
  intro env.
  apply (translate_text_ok_inv env (lit "Hello world") (lit "English") (lit "Spanish")
                               empty_world (lit "Hola, mundo")).
  reflexivity.
Defined.

(** X14: an exception that [requests.post] or [response.json()] lets
    through and that is not a RequestException (a UnicodeEncodeError for an
    API key outside Latin-1, a ValueError of the JSON decoder) leaves
    [make_api_call] as it is, not wrapped in a RuntimeError; at the first step
    [translate_text] then raises it after exactly one request. *)
Theorem library_exceptions_pass_through
    (env : Env) (c : ExcClass) (msg : str) (X : issubclass c Exception = true) :
  issubclass c RequestException = false ->
  (forall p mt T m w,
      respond env (sent w)
        (mkRequest API_ENDPOINT (HEADERS env) (mkPayload m (strip p) mt T)) = Raised c msg X ->
      fst (make_api_call env p mt T m w) = Raise (exc c msg))
  /\ (forall p mt T m w resp,
         respond env (sent w)
           (mkRequest API_ENDPOINT (HEADERS env) (mkPayload m (strip p) mt T)) = Response resp ->
         ~ (400 <= status_code resp < 600)%Z ->
         json resp = DecodeRaised c msg X ->
         fst (make_api_call env p mt T m w) = Raise (exc c msg))
  /\ (forall src sl tl w,
         respond env (sent w) (step1_request env src sl tl) = Raised c msg X ->
         translate_text env src sl tl w
         = (Raise (exc c msg), with_request w (step1_request env src sl tl))).
Proof.
  intros N.
  assert (A : forall p mt T m w,
             respond env (sent w)
               (mkRequest API_ENDPOINT (HEADERS env) (mkPayload m (strip p) mt T))
             = Raised c msg X ->
             fst (make_api_call env p mt T m w) = Raise (exc c msg)).
  { intros p mt T m w R. run_client. rewrite R. cbv beta iota.
    unfold isinstance. cbn [exc exc_class]. now rewrite N. }
  split; [exact A|]. split.
  - intros p mt T m w resp R S J. run_client. rewrite R.
    apply raise_for_status_ok in S. rewrite S. unfold response_json. rewrite J.
    cbv beta iota. unfold isinstance. cbn [exc exc_class]. now rewrite N.
  - intros src sl tl w R. rewrite translate_text_trace. cbn zeta.
    unfold make_api_call_default. now rewrite (A _ _ _ _ _ R).
Qed.

Lemma library_exceptions_pass_through_witness :
  let env := mkEnv (Some [1082; 1083; 1102; 1095]%N)
                   (scripted [lit "Bonjour"; lit "Bonjour"; lit "Version 1"])
                   posix_error_head surrogates_not_allowed (fun _ => true) in
  exists e w',
    translate_text env (lit "Hello") (lit "English") (lit "French") empty_world = (Raise e, w')
    /\ exc_class e = UnicodeEncodeError
    /\ List.length (sent w') = 1%nat.
Proof.
  intro env. do 2 eexists. split.
  - apply (proj2 (proj2 (library_exceptions_pass_through
                           env UnicodeEncodeError
                           (lit "'latin-1' codec can't encode characters: ordinal not in range(256)")
                           eq_refl eq_refl))).
    reflexivity.
  - split; reflexivity.
Defined.

(** ** More on the driver *)

Lemma read_text_file (env : Env) (path : str) (w : World) (wr : bool) (s : str) :
  files w path = Regular true wr (Text s) -> fst (read_text env path w) = Ok s.
Proof. unfold read_text. now intros ->. Qed.

(** A failed write logs nothing and prints nothing. *)
Lemma write_text_failure_world (env : Env) (path text : str) (w w' : World) (e : PyExc) :
  write_text env path text w = (Raise e, w') ->
  sent w' = sent w /\ writes w' = writes w /\ stdout w' = stdout w.
Proof.
  unfold write_text, bind, open_w, file_write.
  destruct (files w path) as [[]| |rd [] d|er ew]; cbn;
    try (intros H; injection H as _ <-; now repeat split);
    destruct (utf8_encodable text); cbn; try discriminate;
    intros H; injection H as _ <-; now repeat split.
Qed.

Lemma translate_text_ok_three_requests (env : Env) (src sl tl : str) (w : World) (t : str) :
  fst (translate_text env src sl tl w) = Ok t ->
  List.length (sent (snd (translate_text env src sl tl w))) = (List.length (sent w) + 3)%nat.
Proof.
  rewrite translate_text_trace. cbn zeta.
  destruct (fst (make_api_call_default env (initial_prompt src sl tl) w)) as [a|e1];
    [|discriminate].
  destruct (fst (make_api_call_default env (refine_prompt tl a) _)) as [b|e2];
    [|discriminate].
  destruct (fst (make_api_call_default env (compare_prompt tl a b) _)) as [v|e3];
    [|discriminate].
  intros _. cbn. rewrite !length_app. cbn. lia.
Qed.

Lemma after_print_stdout (w : World) (text : str) :
  stdout (after_print w text) = stdout w
  \/ stdout (after_print w text) = stdout w ++ [text].
Proof. unfold after_print. destruct (utf8_encodable text); [now right | now left]. Qed.


(** X8: once the arguments are parsed, the driver ends with status 0 or 1
    and nothing else.  With status 0 it has printed nothing and written once,
    to the output path.  With status 1 it has completed no write and made at
    most one [print] call: none goes through when the text of the diagnostic
    cannot be encoded for standard output.  Either way it has sent at most
    three requests. *)
Theorem run_main_status_and_output (env : Env) (args : Args) (w : World) :
  let r := run_main env args w in
  ((fst r = 0%Z /\ stdout (snd r) = stdout w
    /\ exists t, writes (snd r) = writes w ++ [(outfile args, t)])
   \/ (fst r = 1%Z /\ writes (snd r) = writes w
       /\ (stdout (snd r) = stdout w
           \/ exists text, stdout (snd r) = stdout w ++ [text])))
  /\ exists rqs, sent (snd r) = sent w ++ rqs /\ (List.length rqs <= 3)%nat.
Proof.
  intro r. subst r.
  assert (P : forall u text,
             stdout (after_print u text) = stdout u
             \/ exists x, stdout (after_print u text) = stdout u ++ [x]).
  { intros u text. destruct (after_print_stdout u text) as [H|H];
      [now left | right; eexists; exact H]. }
  pose proof (main_body_cases env args w) as B.
  destruct (fst (read_text env (infile args) w)) as [s|e0] eqn:R.
  2:{ rewrite (run_main_raise env args w w e0 B (read_text_raises _ _ _ _ R)).
      cbn [fst snd]. rewrite after_print_sent, after_print_writes. split.
      - right. split; [reflexivity|]. split; [reflexivity | apply P].
      - exists []. rewrite app_nil_r. split; [reflexivity | cbn; lia]. }
  cbn zeta in B.
  pose proof (translate_text_frame env s (source_language args) (target_language args) w)
    as [_ [Fw [Fo _]]]. cbn zeta in Fw, Fo.
  assert (Q : exists rqs,
             sent (snd (translate_text env s (source_language args)
                                       (target_language args) w)) = sent w ++ rqs
             /\ (List.length rqs <= 3)%nat).
  { rewrite translate_text_trace. cbn zeta.
    destruct (fst (make_api_call_default env _ w)) as [a|e1];
      [|eexists; split; [reflexivity | cbn; lia]].
    destruct (fst (make_api_call_default env (refine_prompt _ a) _)) as [b|e2];
      [|eexists; split; [cbn; rewrite <- app_assoc; reflexivity | cbn; lia]].
    destruct (fst (make_api_call_default env (compare_prompt _ a b) _)) as [v|e3];
      eexists; (split; [cbn; rewrite <- !app_assoc; reflexivity | cbn; lia]). }
  destruct (fst (translate_text env s _ _ w)) as [t|e1] eqn:Tr.
  2:{ rewrite (run_main_raise env args w _ e1 B (translate_text_raises _ _ _ _ _ _ Tr)).
      cbn [fst snd]. rewrite after_print_sent, after_print_writes. split; [|exact Q].
      right. split; [reflexivity|]. split; [exact Fw|].
      rewrite <- Fo. apply P. }
  destruct (write_text env (outfile args) t _) as [[[]|e2] w2] eqn:W.
  - rewrite (run_main_ok env args w w2 B). cbn [fst snd].
    apply write_text_ok in W as [rd [wr [Hs [Ho [Hw _]]]]].
    split; [|now rewrite Hs].
    left. rewrite Ho, Hw, Fo, Fw. repeat split. now eexists.
  - assert (X : isinstance e2 Exception = true).
    { apply (write_text_raises env (outfile args) t
               (snd (translate_text env s (source_language args) (target_language args) w))).
      now rewrite W. }
    rewrite (run_main_raise env args w w2 e2 B X).
    apply write_text_failure_world in W as [Hs [Hw Ho]].
    cbn [fst snd]. rewrite after_print_sent, after_print_writes.
    split; [|now rewrite Hs].
    right. split; [reflexivity|]. split; [now rewrite Hw|].
    rewrite <- Fo, <- Ho. apply P.
Qed.

(** X9: when the input file holds text, the orchestrator returns a
    translation that UTF-8 can encode, and the output path can be opened for
    writing, the driver ends with status 0, prints nothing, and leaves the
    translation, and nothing else, in the output file. *)
Theorem run_main_succeeds (env : Env) (args : Args) (w : World) (wr0 : bool) (s t : str) :
  files w (infile args) = Regular true wr0 (Text s) ->
  fst (translate_text env s (source_language args) (target_language args) w) = Ok t ->
  opens_for_writing (files w (outfile args)) = true ->
  utf8_encodable t = true ->
  let r := run_main env args w in
  fst r = 0%Z
  /\ stdout (snd r) = stdout w
  /\ writes (snd r) = writes w ++ [(outfile args, t)]
  /\ exists rd, files (snd r) (outfile args) = Regular rd true (Text t).
Proof.
  intros Hin Tr Ho He r. subst r.
  pose proof (main_body_cases env args w) as B.
  rewrite (read_text_file env _ w wr0 s Hin) in B. cbn zeta in B. rewrite Tr in B.
  pose proof (translate_text_frame env s (source_language args) (target_language args) w)
    as [Ff [Fw [Fo _]]]. cbn zeta in Ff, Fw, Fo.
  unfold write_text, bind, open_w, file_write in B. rewrite Ff, Fw, Fo, He in B.
  unfold opens_for_writing in Ho.
  destruct (files w (outfile args)) as [[]| |rd [] d|er ew]; try discriminate Ho;
    cbn in B; rewrite (run_main_ok env args w _ B); cbn;
    unfold set_file; rewrite str_eqb_refl; repeat split; now eexists.
Qed.

Lemma run_main_succeeds_witness :
  let env := mock_env [lit "Bonjour le monde"; lit "Bonjour le monde"; lit "Version 2"] in
  let w := one_entry (lit "in.txt") (Regular true false (Text (lit "Hello world"))) in
  let r := run_main env (en_fr (lit "in.txt") (lit "out.txt")) w in
  fst r = 0%Z
  /\ stdout (snd r) = stdout w
  /\ writes (snd r) = writes w ++ [(lit "out.txt", lit "Bonjour le monde")]
  /\ exists rd, files (snd r) (lit "out.txt") = Regular rd true (Text (lit "Bonjour le monde")).
Proof.
  intros env w.
  apply (run_main_succeeds env (en_fr (lit "in.txt") (lit "out.txt")) w false
                           (lit "Hello world") (lit "Bonjour le monde"));
    reflexivity.
Defined.

(** X10: an input file whose bytes are not UTF-8 stops the driver before any
    request: it ends with status 1, and because UnicodeDecodeError is a
    ValueError the text it prints is the "Translation error: " one, the same
    prefix as for a malformed verdict. *)
Theorem undecodable_input_is_a_translation_error
    (env : Env) (args : Args) (w : World) (wr : bool) (why : string) :
  files w (infile args) = Regular true wr (Undecodable why) ->
  run_main env args w = (1%Z, with_line w (lit "Translation error: " ++ lit why)).
Proof.
  intros Hin. pose proof (main_body_cases env args w) as B.
  unfold read_text in B. rewrite Hin in B. cbn [fst] in B.
  rewrite (run_main_raise env args w w _ B eq_refl).
  change (diagnostic (exc UnicodeDecodeError (lit why)))
    with (lit "Translation error: " ++ lit why).
  now rewrite after_print_encodable by (rewrite prefixed_encodable; apply lit_encodable).
Qed.

Lemma undecodable_input_is_a_translation_error_witness :
  let why := "'utf-8' codec can't decode byte 0xff in position 0: invalid start byte"%string in
  run_main (mock_env [lit "Bonjour"; lit "Bonjour"; lit "Version 1"])
           (en_fr (lit "in.bin") (lit "out.txt"))
           (one_entry (lit "in.bin") (Regular true true (Undecodable why)))
  = (1%Z, with_line (one_entry (lit "in.bin") (Regular true true (Undecodable why)))
                    (lit "Translation error: " ++ lit why)).
Proof.
  intro why.
  apply (undecodable_input_is_a_translation_error
           (mock_env [lit "Bonjour"; lit "Bonjour"; lit "Version 1"])
           (en_fr (lit "in.bin") (lit "out.txt"))
           (one_entry (lit "in.bin") (Regular true true (Undecodable why))) true why).
  reflexivity.
Defined.

(** X11: the output path is opened only after the translation is complete.
    When it cannot be opened then, the three requests have been sent and the
    translation is dropped: a path in a missing directory gets the
    file-not-found text, a directory or a read-only file the generic one, and
    any other failure of [open] the text of its error; status 1 and no file
    changed in each case. *)
Theorem unwritable_output_loses_the_translation
    (env : Env) (args : Args) (w : World) (wr0 : bool) (s t : str) :
  files w (infile args) = Regular true wr0 (Text s) ->
  fst (translate_text env s (source_language args) (target_language args) w) = Ok t ->
  opens_for_writing (files w (outfile args)) = false ->
  let r := run_main env args w in
  fst r = 1%Z
  /\ files (snd r) = files w /\ writes (snd r) = writes w
  /\ List.length (sent (snd r)) = (List.length (sent w) + 3)%nat
  /\ stdout (snd r)
     = stdout w
       ++ [match files w (outfile args) with
           | Missing _ =>
               lit "Error: File not found - " ++ os_error_text env ENOENT (outfile args)
           | Directory => lit "Unexpected error: " ++ os_error_text env EISDIR (outfile args)
           | Regular _ _ _ =>
               lit "Unexpected error: " ++ os_error_text env EACCES (outfile args)
           | Blocked _ e => open_failure_prefix e ++ os_error_text env e (outfile args)
           end].
Proof.
  intros Hin Tr Ho r. subst r.
  pose proof (main_body_cases env args w) as B.
  rewrite (read_text_file env _ w wr0 s Hin) in B. cbn zeta in B. rewrite Tr in B.
  pose proof (translate_text_ok_three_requests env s _ _ w t Tr) as L.
  pose proof (translate_text_frame env s (source_language args) (target_language args) w)
    as [Ff [Fw [Fo _]]]. cbn zeta in Ff, Fw, Fo.
  unfold write_text, bind, open_w in B. rewrite Ff in B.
  assert (P : forall e,
             main_body env args w
             = (Raise (os_exception env e (outfile args)),
                snd (translate_text env s (source_language args) (target_language args) w)) ->
             let r := run_main env args w in
             fst r = 1%Z
             /\ files (snd r) = files w /\ writes (snd r) = writes w
             /\ List.length (sent (snd r)) = (List.length (sent w) + 3)%nat
             /\ stdout (snd r)
                = stdout w ++ [open_failure_prefix e ++ os_error_text env e (outfile args)]).
  { intros e Be. cbn zeta.
    rewrite (run_main_raise env args w _ _ Be); [|now destruct e].
    replace (diagnostic (os_exception env e (outfile args)))
      with (open_failure_prefix e ++ os_error_text env e (outfile args))
      by (now destruct e).
    rewrite after_print_encodable
      by (destruct e; cbn [open_failure_prefix];
          rewrite prefixed_encodable; apply os_error_text_encodable).
    cbn [fst snd with_line sent files writes stdout].
    rewrite Ff, Fw, Fo, L. now repeat split. }
  unfold opens_for_writing in Ho.
  destruct (files w (outfile args)) as [[]| |rd [] d|er ew]; try discriminate Ho.
  - exact (P ENOENT B).
  - exact (P EISDIR B).
  - exact (P EACCES B).
  - exact (P ew B).
Qed.

Lemma unwritable_output_loses_the_translation_witness :
  let env := mock_env [lit "Bonjour le monde"; lit "Bonjour le monde"; lit "Version 1"] in
  let w := mkWorld [] (set_file (fun _ => Missing false) (lit "in.txt")
                                (Regular true false (Text (lit "Hello world")))) [] [] in
  let r := run_main env (en_fr (lit "in.txt") (lit "gone/out.txt")) w in
  List.length (sent (snd r)) = 3%nat
  /\ stdout (snd r)
     = [lit "Error: File not found - [Errno 2] No such file or directory: 'gone/out.txt'"].
Proof.
  intros env w r.
  destruct (unwritable_output_loses_the_translation
              env (en_fr (lit "in.txt") (lit "gone/out.txt")) w false
              (lit "Hello world") (lit "Bonjour le monde") eq_refl eq_refl eq_refl)
    as [_ [_ [_ [L O]]]].
  split; [exact L | exact O].
Defined.

(** X12: a translation that UTF-8 cannot encode (it holds a lone surrogate,
    which a JSON body can carry) fails in [write], after [open] has already
    created or emptied the output file: the driver ends with status 1 and the
    "Translation error: " text, and the output file is left empty. *)
Theorem unencodable_translation_empties_the_output
    (env : Env) (args : Args) (w : World) (wr0 : bool) (s t : str) :
  files w (infile args) = Regular true wr0 (Text s) ->
  fst (translate_text env s (source_language args) (target_language args) w) = Ok t ->
  opens_for_writing (files w (outfile args)) = true ->
  utf8_encodable t = false ->
  let r := run_main env args w in
  fst r = 1%Z
  /\ writes (snd r) = writes w
  /\ stdout (snd r) = stdout w ++ [lit "Translation error: " ++ encode_error_text env t]
  /\ exists rd, files (snd r) (outfile args) = Regular rd true (Text []).
Proof.
  intros Hin Tr Ho He r. subst r.
  pose proof (main_body_cases env args w) as B.
  rewrite (read_text_file env _ w wr0 s Hin) in B. cbn zeta in B. rewrite Tr in B.
  pose proof (translate_text_frame env s (source_language args) (target_language args) w)
    as [Ff [Fw [Fo _]]]. cbn zeta in Ff, Fw, Fo.
  unfold write_text, bind, open_w, file_write in B. rewrite Ff, Fw, Fo, He in B.
  assert (E : utf8_encodable (lit "Translation error: " ++ encode_error_text env t) = true)
    by (rewrite prefixed_encodable; apply lit_encodable).
  unfold opens_for_writing in Ho.
  destruct (files w (outfile args)) as [[]| |rd [] d|er ew]; try discriminate Ho;
    cbn in B; rewrite (run_main_raise env args w _ _ B eq_refl);
    change (diagnostic (exc UnicodeEncodeError (encode_error_text env t)))
      with (lit "Translation error: " ++ encode_error_text env t);
    rewrite (after_print_encodable _ _ E); cbn [fst snd with_line files writes stdout];
    unfold set_file; rewrite str_eqb_refl; repeat split; now eexists.
Qed.

Lemma unencodable_translation_empties_the_output_witness :
  let env := mock_env [[55357%N]; lit "Bonjour"; lit "Version 1"] in
  let w := mkWorld [] (set_file (set_file (fun _ => Missing true) (lit "in.txt")
                                          (Regular true false (Text (lit "Hello"))))
                                (lit "out.txt") (Regular true true (Text (lit "old text"))))
                   [] [] in
  let r := run_main env (en_fr (lit "in.txt") (lit "out.txt")) w in
  fst r = 1%Z
  /\ writes (snd r) = writes w
  /\ stdout (snd r) = stdout w ++ [lit "Translation error: " ++ encode_error_text env [55357%N]]
  /\ exists rd, files (snd r) (lit "out.txt") = Regular rd true (Text []).
Proof.
  intros env w.
  apply (unencodable_translation_empties_the_output
           env (en_fr (lit "in.txt") (lit "out.txt")) w false (lit "Hello") [55357%N]);
    reflexivity.
Defined.


